(** * arduino-repl: a shallow embedding of the firmware and its properties

    The firmware is a serial command interpreter for an ATmega328-class
    board.  Three translation units are embedded here:

    - [soft_pwm.cpp]: the software-PWM channel table ([setPWM], [resetPWM],
      [updateSoftPWM]);
    - [utils.cpp]: pin translation ([readPin]) and [isHardwarePWMPin];
    - [commands.cpp] and [main.cpp]: operand counts, command completion,
      dispatch, response encoding and the main loop with its buffer
      compaction.

    Machine integers are integers of [Z] with the wrap-around written out
    where the C code can wrap; array indices and the channel count are
    [nat].  The globals of the firmware are the fields of one record that
    every operation takes and returns.  Calls into the Arduino core that
    act on the outside world are recorded in two logs: the pin operations
    and the bytes written to the serial port. *)

From Stdlib Require Import ZArith List Bool Lia.
From stdpp Require Import base list.

Import ListNotations.

(** ** Compile-time configuration ([config.h]) *)

Definition VERSION : Z := 1.
(** ["Arduino REPL v1.0"] with the terminating NUL that [sizeof] counts. *)
Definition INFO : list Z :=
  [65; 114; 100; 117; 105; 110; 111; 32; 82; 69; 80; 76; 32; 118; 49; 46; 48; 0]%Z.
Definition COMMANDS_COUNT : Z := 8.
Definition SUCCESS_CODE : Z := 0xFF.
Definition ERROR_CODE : Z := 0xFE.
Definition BUFFER_SIZE : Z := 10.
Definition MAX_SOFT_PWM : nat := 6.
Definition SOFT_PWM_FREQ : Z := 50.
Definition TOTAL_RAM : Z := 2048.
Definition FLASH_SIZE : Z := 32256.
Definition CPU_FREQ : Z := 16000000.
Definition HARDWARE_PWM_PINS : list Z := [3; 5; 6; 9; 10; 11]%Z.
Definition DIGITAL_PINS : Z := 14.
Definition TOTAL_PINS : Z := 22.

(** Pin levels of the Arduino core. *)
Definition LOW : Z := 0.
Definition HIGH : Z := 1.

(** ** Machine integers *)

(** [byte], [uint16_t] and [unsigned long] (32 bits on AVR). *)
Definition u8 (x : Z) : Z := (x mod 2 ^ 8)%Z.
Definition u16 (x : Z) : Z := (x mod 2 ^ 16)%Z.
Definition u32 (x : Z) : Z := (x mod 2 ^ 32)%Z.

(** ** Data model *)

(** [struct SoftPWM] of [soft_pwm.h]. *)
Record SoftPWM : Type := mkSoftPWM {
  pin : Z;
  dutyCycle : Z;
  lastToggle : Z;
  state : bool;
  enabled : bool
}.

(** [struct CommandResult] of [commands.h]. *)
Record CommandResult : Type := mkResult {
  hasError : bool;
  hasOutput : bool;
  isTwoByteOutput : bool;
  outputValue : Z
}.

(** The calls of the Arduino core that drive a pin. *)
Inductive PinEvent : Type :=
| DigitalWrite (p v : Z)
| AnalogWrite (p v : Z)
| PinMode (p m : Z).

(** The globals of the firmware, the two logs of its outside effects, and
    a ghost log of the channel-table slots touched: each entry is the index
    of the slot and the value of [softPWMCount] at that moment. *)
Record Firmware : Type := mkFirmware {
  softPWM : list SoftPWM;
  softPWMCount : nat;
  commandBuffer : list Z;
  bufferIndex : Z;
  result : CommandResult;
  pinLog : list PinEvent;
  serialOut : list Z;
  slotLog : list (nat * nat)
}.

Definition set_softPWM (t : list SoftPWM) (st : Firmware) : Firmware :=
  mkFirmware t (softPWMCount st) (commandBuffer st) (bufferIndex st)
             (result st) (pinLog st) (serialOut st) (slotLog st).
Definition set_softPWMCount (n : nat) (st : Firmware) : Firmware :=
  mkFirmware (softPWM st) n (commandBuffer st) (bufferIndex st)
             (result st) (pinLog st) (serialOut st) (slotLog st).
Definition set_commandBuffer (b : list Z) (st : Firmware) : Firmware :=
  mkFirmware (softPWM st) (softPWMCount st) b (bufferIndex st)
             (result st) (pinLog st) (serialOut st) (slotLog st).
Definition set_bufferIndex (n : Z) (st : Firmware) : Firmware :=
  mkFirmware (softPWM st) (softPWMCount st) (commandBuffer st) n
             (result st) (pinLog st) (serialOut st) (slotLog st).
Definition set_result (r : CommandResult) (st : Firmware) : Firmware :=
  mkFirmware (softPWM st) (softPWMCount st) (commandBuffer st) (bufferIndex st)
             r (pinLog st) (serialOut st) (slotLog st).
Definition set_pinLog (l : list PinEvent) (st : Firmware) : Firmware :=
  mkFirmware (softPWM st) (softPWMCount st) (commandBuffer st) (bufferIndex st)
             (result st) l (serialOut st) (slotLog st).
Definition set_serialOut (l : list Z) (st : Firmware) : Firmware :=
  mkFirmware (softPWM st) (softPWMCount st) (commandBuffer st) (bufferIndex st)
             (result st) (pinLog st) l (slotLog st).
Definition set_slotLog (l : list (nat * nat)) (st : Firmware) : Firmware :=
  mkFirmware (softPWM st) (softPWMCount st) (commandBuffer st) (bufferIndex st)
             (result st) (pinLog st) (serialOut st) l.

(** A zero-initialised slot, as the C runtime leaves the table. *)
Definition zeroSlot : SoftPWM := mkSoftPWM 0 0 0 false false.

(** The globals after start-up and [setup()]. *)
Definition initFirmware : Firmware :=
  mkFirmware (replicate MAX_SOFT_PWM zeroSlot) 0
             (replicate (Z.to_nat BUFFER_SIZE) 0%Z) 0
             (mkResult false false false 0) [] [] [].

(** ** Primitives *)

Definition digitalWrite (p v : Z) (st : Firmware) : Firmware :=
  set_pinLog (pinLog st ++ [DigitalWrite p v]) st.
Definition analogWrite (p v : Z) (st : Firmware) : Firmware :=
  set_pinLog (pinLog st ++ [AnalogWrite p v]) st.
Definition pinMode (p m : Z) (st : Firmware) : Firmware :=
  set_pinLog (pinLog st ++ [PinMode p m]) st.
(** [Serial.write] of one byte. *)
Definition serialWrite (b : Z) (st : Firmware) : Firmware :=
  set_serialOut (serialOut st ++ [u8 b]) st.

(** Access to [softPWM[i]].  The model is total: a read past the array
    yields [zeroSlot] and a write past it is dropped; [slotLog] records
    every access so that the bounds can be stated and proved. *)
Definition touch (i : nat) (st : Firmware) : Firmware :=
  set_slotLog (slotLog st ++ [(i, softPWMCount st)]) st.
Definition slot (i : nat) (st : Firmware) : SoftPWM :=
  default zeroSlot (softPWM st !! i).
Definition readSlot (i : nat) (st : Firmware) : SoftPWM * Firmware :=
  (slot i st, touch i st).
Definition writeSlot (i : nat) (c : SoftPWM) (st : Firmware) : Firmware :=
  touch i (set_softPWM (<[i := c]> (softPWM st)) st).

(** Assignment to one field of a slot, [softPWM[i].f = v]: one access to
    slot [i]. *)
Definition modifySlot (i : nat) (f : SoftPWM -> SoftPWM) (st : Firmware) : Firmware :=
  writeSlot i (f (slot i st)) st.

Definition set_enabled (b : bool) (c : SoftPWM) : SoftPWM :=
  mkSoftPWM (pin c) (dutyCycle c) (lastToggle c) (state c) b.
Definition set_state (b : bool) (c : SoftPWM) : SoftPWM :=
  mkSoftPWM (pin c) (dutyCycle c) (lastToggle c) b (enabled c).
Definition set_lastToggle (t : Z) (c : SoftPWM) : SoftPWM :=
  mkSoftPWM (pin c) (dutyCycle c) t (state c) (enabled c).

(** ** [utils.cpp] *)

(** [isHardwarePWMPin]: linear search in the [HARDWARE_PWM_PINS] array. *)
Definition isHardwarePWMPin (p : Z) : bool :=
  existsb (fun h => (h =? p)%Z) HARDWARE_PWM_PINS.

(** ** [soft_pwm.cpp] *)

(** The search loop of [setPWM]: [n] iterations remain, [index] is the loop
    variable.  It stops at the first slot that holds the pin or is
    disabled.  The index stays at or below [softPWMCount], a byte, so its
    increment cannot wrap. *)
Fixpoint scanSlot (p : Z) (n index : nat) (st : Firmware) : nat * Firmware :=
  match n with
  | O => (index, st)
  | S n' =>
      let '(c, st1) := readSlot index st in
      if (pin c =? p)%Z || negb (enabled c) then (index, st1)
      else scanSlot p n' (S index) st1
  end.

(** [setPWM(pin, dutyCycle)]; [now] is the value [millis()] returns. *)
Definition setPWM (p duty now : Z) (st : Firmware) : bool * Firmware :=
  if isHardwarePWMPin p then (true, analogWrite p duty st)
  else
    let st1 := digitalWrite p LOW st in
    let '(index, st2) := scanSlot p (softPWMCount st1) 0 st1 in
    if (MAX_SOFT_PWM <=? index)%nat then (false, st2)
    else if (duty =? 0)%Z then
      (true,
       if (index <? softPWMCount st2)%nat
       then modifySlot index (set_enabled false) st2
       else st2)
    else
      let st3 :=
        if (index =? softPWMCount st2)%nat
        then set_softPWMCount (S (softPWMCount st2) mod 256) st2
        else st2 in
      (true, writeSlot index (mkSoftPWM p duty now false true) st3).

(** The loop of [resetPWM]: the first slot holding the pin is disabled and
    the loop is left. *)
Fixpoint resetScan (p : Z) (n i : nat) (st : Firmware) : Firmware :=
  match n with
  | O => st
  | S n' =>
      let '(c, st1) := readSlot i st in
      if (pin c =? p)%Z then modifySlot i (set_enabled false) st1
      else resetScan p n' (S i) st1
  end.

Definition resetPWM (p : Z) (st : Firmware) : Firmware :=
  resetScan p (softPWMCount st) 0 st.

(** The constants and the time difference of [updateSoftPWM], in
    [unsigned long] arithmetic. *)
Definition period : Z := (1000 / SOFT_PWM_FREQ)%Z.
Definition onTime (c : SoftPWM) : Z := (u32 (period * dutyCycle c) / 255)%Z.
Definition elapsed (now : Z) (c : SoftPWM) : Z := u32 (now - lastToggle c).

(** One iteration of the loop of [updateSoftPWM], on slot [i]. *)
Definition updateBody (now : Z) (i : nat) (st : Firmware) : Firmware :=
  let '(c, st1) := readSlot i st in
  if negb (enabled c) then st1
  else if state c && (onTime c <=? elapsed now c)%Z then
    modifySlot i (set_state false) (digitalWrite (pin c) LOW st1)
  else if negb (state c) && (period <=? elapsed now c)%Z then
    modifySlot i (set_lastToggle now)
      (modifySlot i (set_state true) (digitalWrite (pin c) HIGH st1))
  else st1.

Fixpoint updateLoop (now : Z) (n i : nat) (st : Firmware) : Firmware :=
  match n with
  | O => st
  | S n' => updateLoop now n' (S i) (updateBody now i st)
  end.

(** [updateSoftPWM()]; [now] is the value [millis()] returns. *)
Definition updateSoftPWM (now : Z) (st : Firmware) : Firmware :=
  updateLoop now (softPWMCount st) 0 st.

(** ** [commands.h]: opcodes *)

Definition CMD_NOP : Z := 0.
Definition CMD_INFO : Z := 1.
Definition CMD_DIGITALREAD : Z := 2.
Definition CMD_DIGITALWRITE : Z := 3.
Definition CMD_ANALOGREAD : Z := 4.
Definition CMD_ANALOGWRITE : Z := 5.
Definition CMD_PINMODE : Z := 6.
Definition CMD_RESET : Z := 7.

(** What one pass of the main loop reads from the outside: the two values
    of [millis()] (in [updateSoftPWM] and during the command), the levels
    [digitalRead] and [analogRead] return, and [getFreeRam()]. *)
Record Env : Type := mkEnv {
  millisAtUpdate : Z;
  millisAtCommand : Z;
  digitalReadOf : Z -> Z;
  analogReadOf : Z -> Z;
  freeRam : Z
}.

(** How [executeBufferedCommand] ends: it returns to [loop], or the reset
    command jumps to address 0 and the firmware starts again. *)
Inductive Outcome : Type :=
| Returned (st : Firmware)
| Restarted (st : Firmware).

(** [commandBuffer[i]]; the array has [BUFFER_SIZE] bytes. *)
Definition byteAt (i : nat) (st : Firmware) : Z :=
  default 0%Z (commandBuffer st !! i).

Definition set_hasError (b : bool) (st : Firmware) : Firmware :=
  set_result (mkResult b (hasOutput (result st)) (isTwoByteOutput (result st))
                       (outputValue (result st))) st.
Definition set_hasOutput (b : bool) (st : Firmware) : Firmware :=
  set_result (mkResult (hasError (result st)) b (isTwoByteOutput (result st))
                       (outputValue (result st))) st.
Definition set_isTwoByteOutput (b : bool) (st : Firmware) : Firmware :=
  set_result (mkResult (hasError (result st)) (hasOutput (result st)) b
                       (outputValue (result st))) st.
Definition set_outputValue (v : Z) (st : Firmware) : Firmware :=
  set_result (mkResult (hasError (result st)) (hasOutput (result st))
                       (isTwoByteOutput (result st)) (u16 v)) st.

(** ** [commands.cpp] *)

(** [getRequiredArgs]: the [switch] over the opcode. *)
Definition getRequiredArgs (command : Z) : Z :=
  if (command =? CMD_NOP)%Z || (command =? CMD_RESET)%Z || (command =? CMD_INFO)%Z
  then 0%Z
  else if (command =? CMD_PINMODE)%Z || (command =? CMD_DIGITALWRITE)%Z
          || (command =? CMD_ANALOGWRITE)%Z
  then 2%Z
  else if (command =? CMD_DIGITALREAD)%Z || (command =? CMD_ANALOGREAD)%Z
  then 1%Z
  else 0%Z.

Definition hasCompleteCommand (st : Firmware) : bool :=
  (0 <? bufferIndex st)%Z && (getRequiredArgs (byteAt 0 st) <? bufferIndex st)%Z.

Definition sendResponse (st : Firmware) : Firmware :=
  if hasError (result st) then serialWrite ERROR_CODE st
  else
    let st1 :=
      if hasOutput (result st) then
        let st' := serialWrite (Z.land (outputValue (result st)) 0xFF) st in
        if isTwoByteOutput (result st)
        then serialWrite (Z.land (Z.shiftr (outputValue (result st)) 8) 0xFF) st'
        else st'
      else st in
    serialWrite SUCCESS_CODE st1.

Definition sendUInt16 (value : Z) (st : Firmware) : Firmware :=
  serialWrite (Z.land (Z.shiftr value 8) 0xFF) (serialWrite (Z.land value 0xFF) st).

Definition sendUInt32 (value : Z) (st : Firmware) : Firmware :=
  serialWrite (Z.land (Z.shiftr value 24) 0xFF)
    (serialWrite (Z.land (Z.shiftr value 16) 0xFF)
       (serialWrite (Z.land (Z.shiftr value 8) 0xFF)
          (serialWrite (Z.land value 0xFF) st))).

(** [Serial.write(buffer, size)]. *)
Definition serialWriteAll (bs : list Z) (st : Firmware) : Firmware :=
  fold_left (fun s b => serialWrite b s) bs st.

Definition sendInfo (env : Env) (st : Firmware) : Firmware :=
  let st := sendUInt16 0xB416 st in
  let st := sendUInt16 VERSION st in
  let st := sendUInt32 (millisAtCommand env) st in
  let st := sendUInt16 (freeRam env) st in
  let st := sendUInt16 TOTAL_RAM st in
  let st := sendUInt32 FLASH_SIZE st in
  let st := sendUInt32 CPU_FREQ st in
  let st := serialWrite BUFFER_SIZE st in
  let st := serialWrite DIGITAL_PINS st in
  let st := serialWrite TOTAL_PINS st in
  let st := serialWrite (Z.of_nat MAX_SOFT_PWM) st in
  let st := serialWrite SOFT_PWM_FREQ st in
  let st := serialWrite COMMANDS_COUNT st in
  let st := serialWrite SUCCESS_CODE st in
  let st := serialWrite ERROR_CODE st in
  let st := serialWrite (Z.of_nat (length HARDWARE_PWM_PINS)) st in
  let st := serialWriteAll HARDWARE_PWM_PINS st in
  let st := serialWrite (Z.of_nat (length INFO)) st in
  serialWriteAll INFO st.

Section Board.

(** The number of the first analog pin, [A0] of the Arduino core's
    [pins_arduino.h]; the core is not part of the repository, so the
    constant is a parameter of the development. *)
Variable A0 : Z.

(** [readPin(pin, error)]: the translated pin and the value of the flag
    the caller passed by reference. *)
Definition readPin (p : Z) (error : bool) : Z * bool :=
  if (p <? DIGITAL_PINS)%Z then (p, error)
  else if (p <? TOTAL_PINS)%Z then (u8 (p - DIGITAL_PINS + A0), error)
  else (0%Z, true).

(** The [switch] of [executeBufferedCommand], after the pin was
    translated. *)
Definition runCommand (env : Env) (command p : Z) (st : Firmware) : Outcome :=
  if (command =? CMD_NOP)%Z then Returned st
  else if (command =? CMD_INFO)%Z then
    Returned (set_hasOutput true (sendInfo env st))
  else if (command =? CMD_DIGITALREAD)%Z then
    Returned (set_hasOutput true (set_outputValue (digitalReadOf env p) st))
  else if (command =? CMD_DIGITALWRITE)%Z then
    Returned (digitalWrite p (byteAt 2 st) (resetPWM p st))
  else if (command =? CMD_ANALOGREAD)%Z then
    Returned (set_isTwoByteOutput true
                (set_hasOutput true (set_outputValue (analogReadOf env p) st)))
  else if (command =? CMD_ANALOGWRITE)%Z then
    let '(ok, st1) := setPWM p (byteAt 2 st) (millisAtCommand env) st in
    Returned (set_hasError (negb ok) st1)
  else if (command =? CMD_RESET)%Z then
    Restarted (sendResponse (set_result (mkResult false false false 0) st))
  else if (command =? CMD_PINMODE)%Z then
    Returned (pinMode p (byteAt 2 st) st)
  else Returned (set_hasError true st).

Definition executeBufferedCommand (env : Env) (st0 : Firmware) : Outcome :=
  let st := set_result (mkResult false false false 0) st0 in
  let command := byteAt 0 st in
  if negb (command =? CMD_NOP)%Z && negb (command =? CMD_RESET)%Z
     && negb (command =? CMD_INFO)%Z
  then
    let '(p, error) := readPin (byteAt 1 st) false in
    let st1 := set_hasError error st in
    if error then Returned st1 else runCommand env command p st1
  else runCommand env command 0 st.

(** ** [main.cpp] *)

(** The read loop: [incoming] is what the serial port has received; the
    bytes not taken stay in the port. *)
Fixpoint drain (incoming : list Z) (st : Firmware) : Firmware * list Z :=
  match incoming with
  | [] => (st, [])
  | b :: rest =>
      if (bufferIndex st <? BUFFER_SIZE)%Z then
        drain rest
          (set_bufferIndex (bufferIndex st + 1)
             (set_commandBuffer
                (<[Z.to_nat (bufferIndex st) := u8 b]> (commandBuffer st)) st))
      else (st, incoming)
  end.

(** The copy loop at the end of [loop]: [n] iterations remain, [i] is the
    loop variable. *)
Fixpoint shiftLoop (commandLength : Z) (n : nat) (i : Z) (buf : list Z) : list Z :=
  match n with
  | O => buf
  | S n' =>
      shiftLoop commandLength n' (i + 1)
        (<[Z.to_nat (i - commandLength) := default 0%Z (buf !! Z.to_nat i)]> buf)
  end.

(** One pass of [loop()]: the outcome and the bytes left in the serial
    port. *)
Definition loop (env : Env) (incoming : list Z) (st : Firmware) : Outcome * list Z :=
  let st1 := updateSoftPWM (millisAtUpdate env) st in
  let '(st2, rest) := drain incoming st1 in
  if hasCompleteCommand st2 then
    match executeBufferedCommand env st2 with
    | Restarted s => (Restarted s, rest)
    | Returned st3 =>
        let st4 := sendResponse st3 in
        let command := byteAt 0 st4 in
        let commandLength := (1 + getRequiredArgs command)%Z in
        let st5 :=
          set_commandBuffer
            (shiftLoop commandLength (Z.to_nat (bufferIndex st4 - commandLength))
                       commandLength (commandBuffer st4)) st4 in
        (Returned (set_bufferIndex (bufferIndex st5 - commandLength) st5), rest)
    end
  else (Returned st2, rest).

End Board.

(** ** Vocabulary of the properties *)

(** The opcodes whose first operand is a pin index. *)
Definition pinAddressed (command : Z) : Prop :=
  command = CMD_DIGITALREAD \/ command = CMD_DIGITALWRITE \/
  command = CMD_ANALOGREAD \/ command = CMD_ANALOGWRITE \/
  command = CMD_PINMODE.

(** The states the channel table can be in: what [setPWM], [resetPWM] and
    [updateSoftPWM] make of the initial state, whatever their arguments
    and the clock. *)
Inductive reachable : Firmware -> Prop :=
| reach_init : reachable initFirmware
| reach_setPWM p duty now st :
    reachable st -> reachable (setPWM p duty now st).2
| reach_resetPWM p st :
    reachable st -> reachable (resetPWM p st)
| reach_updateSoftPWM now st :
    reachable st -> reachable (updateSoftPWM now st).

(** A table with [MAX_SOFT_PWM] channels in use, all of them enabled and
    none of them on pin [p]. *)
Definition tableFull (p : Z) (st : Firmware) : Prop :=
  softPWMCount st = MAX_SOFT_PWM /\
  length (softPWM st) = MAX_SOFT_PWM /\
  forall i c, (i < MAX_SOFT_PWM)%nat -> softPWM st !! i = Some c ->
              pin c <> p /\ enabled c = true.

(** A sequence of calls [setPWM(pin, duty)], each with the value of
    [millis()] it sees: the results in order and the final state. *)
Fixpoint runSetPWM (calls : list (Z * Z * Z)) (st : Firmware) : list bool * Firmware :=
  match calls with
  | [] => ([], st)
  | (p, duty, now) :: rest =>
      let '(ok, st1) := setPWM p duty now st in
      let '(oks, st2) := runSetPWM rest st1 in
      (ok :: oks, st2)
  end.

(** Seven calls for distinct pins without hardware PWM, and the state
    after the first six of them. *)
Definition sevenCalls : list (Z * Z * Z) :=
  [(2, 100, 0); (4, 100, 1); (7, 100, 2); (8, 100, 3); (12, 100, 4);
   (13, 100, 5); (14, 100, 6)]%Z.
Definition sixChannels : Firmware := (runSetPWM (take 6 sevenCalls) initFirmware).2.

(** The command buffer is an array of [BUFFER_SIZE] bytes and
    [bufferIndex] counts the bytes in use. *)
Definition bufferOK (st : Firmware) : Prop :=
  length (commandBuffer st) = Z.to_nat BUFFER_SIZE /\
  (0 <= bufferIndex st <= BUFFER_SIZE)%Z.

(** Two states with the same command buffer and the same count of
    buffered bytes. *)
Definition sameBuffer (st st' : Firmware) : Prop :=
  commandBuffer st' = commandBuffer st /\ bufferIndex st' = bufferIndex st.

(** What the outside provides in a pass in which the clock reads [t]. *)
Definition quietEnv (t : Z) : Env :=
  mkEnv t t (fun _ => 0%Z) (fun _ => 0%Z) 1500.

(** Five commands, one per pass: analog-write on pins 2 and 4, analog-write
    of duty 0 on pin 2, analog-write on pin 4 again, digital-write of [LOW]
    on pin 4. *)
Definition duplicateChannelPasses : list (Env * list Z) :=
  [(quietEnv 0, [5; 2; 100]); (quietEnv 1, [5; 4; 100]); (quietEnv 2, [5; 2; 0]);
   (quietEnv 3, [5; 4; 50]); (quietEnv 4, [3; 4; 0])]%Z.

(** Passes of [loop] in a row: each pass comes with what the outside
    provides during it and the bytes that arrive at the serial port before
    it; [port] holds the bytes received and not yet read.  The run ends
    with [None] when a pass restarts the firmware. *)
Fixpoint runLoop (A0 : Z) (passes : list (Env * list Z)) (port : list Z)
    (st : Firmware) : option Firmware :=
  match passes with
  | [] => Some st
  | (env, arriving) :: more =>
      match loop A0 env (port ++ arriving) st with
      | (Returned st', port') => runLoop A0 more port' st'
      | (Restarted _, _) => None
      end
  end.

(** An access to slot [a.1] made while [softPWMCount] was [a.2] is within
    the part of the table in use, and that part within the array. *)
Definition accessOK (a : nat * nat) : Prop :=
  (a.1 < a.2)%nat /\ (a.2 <= MAX_SOFT_PWM)%nat.

Definition tableInv (st : Firmware) : Prop :=
  (softPWMCount st <= MAX_SOFT_PWM)%nat /\
  length (softPWM st) = MAX_SOFT_PWM /\
  Forall accessOK (slotLog st).

(** The slots in use. *)
Definition usedSlots (st : Firmware) : list SoftPWM :=
  take (softPWMCount st) (softPWM st).

(** A table whose slots in use are all enabled and hold distinct pins. *)
Definition distinctEnabled (st : Firmware) : Prop :=
  (softPWMCount st <= MAX_SOFT_PWM)%nat /\
  length (softPWM st) = MAX_SOFT_PWM /\
  NoDup (pin <$> usedSlots st) /\
  Forall (fun c => enabled c = true) (usedSlots st).

(** The pin a pin operation acts on. *)
Definition eventPin (ev : PinEvent) : Z :=
  match ev with
  | DigitalWrite p _ => p
  | AnalogWrite p _ => p
  | PinMode p _ => p
  end.

(** The [n] low bytes of [v], lowest first, and the number a list of bytes
    stands for in that order. *)
Fixpoint littleEndian (n : nat) (v : Z) : list Z :=
  match n with
  | O => []
  | S n' => (v mod 256)%Z :: littleEndian n' (v / 256)%Z
  end.

Fixpoint fromLittleEndian (bs : list Z) : Z :=
  match bs with
  | [] => 0%Z
  | b :: rest => (b + 256 * fromLittleEndian rest)%Z
  end.

(** The bytes of the reply to the info command before its terminator, field
    by field. *)
Definition infoPayload (env : Env) : list Z :=
  littleEndian 2 0xB416 ++ littleEndian 2 VERSION
  ++ littleEndian 4 (millisAtCommand env) ++ littleEndian 2 (freeRam env)
  ++ littleEndian 2 TOTAL_RAM ++ littleEndian 4 FLASH_SIZE
  ++ littleEndian 4 CPU_FREQ
  ++ [BUFFER_SIZE; DIGITAL_PINS; TOTAL_PINS; Z.of_nat MAX_SOFT_PWM; SOFT_PWM_FREQ;
      COMMANDS_COUNT; SUCCESS_CODE; ERROR_CODE]
  ++ [Z.of_nat (length HARDWARE_PWM_PINS)] ++ HARDWARE_PWM_PINS
  ++ [Z.of_nat (length INFO)] ++ INFO.

(** * Properties *)

(** ** Machine integers *)

Lemma land_255 (x : Z) : Z.land x 0xFF = (x mod 2 ^ 8)%Z.
Proof. change 0xFF%Z with (Z.ones 8). apply Z.land_ones. lia. Qed.

Lemma u8_idem (x : Z) : u8 (u8 x) = u8 x.
Proof. unfold u8. apply Z.mod_mod. lia. Qed.

Lemma u8_small (x : Z) : (0 <= x < 256)%Z -> u8 x = x.
Proof. intros H. unfold u8. apply Z.mod_small. lia. Qed.

Lemma u8_land_255 (x : Z) : u8 (Z.land x 0xFF) = (x mod 2 ^ 8)%Z.
Proof. rewrite land_255. apply u8_idem. Qed.

Lemma shiftr_8 (x : Z) : Z.shiftr x 8 = (x / 2 ^ 8)%Z.
Proof. apply Z.shiftr_div_pow2. lia. Qed.

(** ** Operand counts and command completion *)

Lemma getRequiredArgs_nonneg (b : Z) : (0 <= getRequiredArgs b)%Z.
Proof.
  unfold getRequiredArgs.
  repeat match goal with |- context [if ?c then _ else _] => destruct c end; lia.
Qed.

Lemma getRequiredArgs_le_2 (b : Z) : (getRequiredArgs b <= 2)%Z.
Proof.
  unfold getRequiredArgs.
  repeat match goal with |- context [if ?c then _ else _] => destruct c end; lia.
Qed.

(** C7: the operand count is 0 for no-op (0x0), info (0x1) and reset (0x7),
    1 for digital-read (0x2) and analog-read (0x4), 2 for digital-write
    (0x3), analog-write (0x5) and pin-mode (0x6), and 0 for every other
    value. *)
Theorem getRequiredArgs_table (b : Z) :
  (b = 0x0 \/ b = 0x1 \/ b = 0x7 -> getRequiredArgs b = 0)%Z /\
  (b = 0x2 \/ b = 0x4 -> getRequiredArgs b = 1)%Z /\
  (b = 0x3 \/ b = 0x5 \/ b = 0x6 -> getRequiredArgs b = 2)%Z /\
  (~ (0x0 <= b <= 0x7) -> getRequiredArgs b = 0)%Z.
Proof.
  unfold getRequiredArgs, CMD_NOP, CMD_INFO, CMD_DIGITALREAD, CMD_DIGITALWRITE,
    CMD_ANALOGREAD, CMD_ANALOGWRITE, CMD_PINMODE, CMD_RESET.
  repeat split; intros H;
    repeat match goal with
           | |- context [(?x =? ?y)%Z] => destruct (Z.eqb_spec x y)
           end; simpl; lia.
Qed.

(** C6: a command is complete exactly when more bytes are buffered than the
    opcode in [commandBuffer[0]] needs operands; with opcode 0x3, two
    buffered bytes are not a complete command and three are. *)
Theorem hasCompleteCommand_iff (st : Firmware) :
  (hasCompleteCommand st = true <->
   (getRequiredArgs (byteAt 0 st) < bufferIndex st)%Z) /\
  (byteAt 0 st = 0x3%Z ->
   (bufferIndex st = 2%Z -> hasCompleteCommand st = false) /\
   (bufferIndex st = 3%Z -> hasCompleteCommand st = true)).
Proof.
  unfold hasCompleteCommand. split.
  - pose proof (getRequiredArgs_nonneg (byteAt 0 st)) as Hge.
    rewrite andb_true_iff, !Z.ltb_lt. lia.
  - intros ->. split; intros ->; reflexivity.
Qed.

(** ** The response encoder *)

(** C4: an error result is answered by the byte [ERROR_CODE] alone; any
    other result by the low byte of [outputValue] when [hasOutput], then
    its high byte when moreover [isTwoByteOutput], and [SUCCESS_CODE] as
    the last byte; a result without output and without error is answered
    by [SUCCESS_CODE] alone.  Nothing but the serial output changes. *)
Theorem sendResponse_bytes (st : Firmware) :
  let r := result st in
  let lo := (outputValue r mod 2 ^ 8)%Z in
  let hi := ((outputValue r / 2 ^ 8) mod 2 ^ 8)%Z in
  sendResponse st = set_serialOut (serialOut (sendResponse st)) st /\
  (hasError r = true ->
   serialOut (sendResponse st) = serialOut st ++ [ERROR_CODE]) /\
  (hasError r = false -> hasOutput r = false ->
   serialOut (sendResponse st) = serialOut st ++ [SUCCESS_CODE]) /\
  (hasError r = false -> hasOutput r = true -> isTwoByteOutput r = false ->
   serialOut (sendResponse st) = serialOut st ++ [lo; SUCCESS_CODE]) /\
  (hasError r = false -> hasOutput r = true -> isTwoByteOutput r = true ->
   serialOut (sendResponse st) = serialOut st ++ [lo; hi; SUCCESS_CODE]).
Proof.
  intros r lo hi. subst r lo hi. unfold sendResponse.
  destruct st as [t n b k [e o w v] pl so sl]; simpl.
  destruct e, o, w; simpl;
    (split; [reflexivity|]);
    repeat split; intros; try discriminate;
    unfold serialWrite; simpl; rewrite <- ?app_assoc; simpl;
    rewrite ?u8_land_255, ?shiftr_8; reflexivity.
Qed.

(** ** Pin translation and the validation gate *)

(** C9: a pin index below [DIGITAL_PINS] is its own translation; an index
    from [DIGITAL_PINS] up to [TOTAL_PINS] (excluded) is translated to
    [A0] plus its offset from [DIGITAL_PINS]; any index from [TOTAL_PINS]
    on raises the error flag.  The analog pins are taken to fit in a
    byte. *)
Theorem readPin_translation (A0 p : Z) (error : bool) :
  (0 <= A0)%Z -> (A0 + (TOTAL_PINS - DIGITAL_PINS) <= 256)%Z ->
  ((p < DIGITAL_PINS)%Z -> readPin A0 p error = (p, error)) /\
  ((DIGITAL_PINS <= p < TOTAL_PINS)%Z ->
   readPin A0 p error = ((A0 + (p - DIGITAL_PINS))%Z, error)) /\
  ((TOTAL_PINS <= p)%Z -> readPin A0 p error = (0%Z, true)).
Proof.
  unfold readPin, TOTAL_PINS, DIGITAL_PINS. intros HA0 Hfit.
  repeat split; intros Hp.
  - destruct (Z.ltb_spec p 14); [reflexivity | lia].
  - destruct (Z.ltb_spec p 14); [lia |].
    destruct (Z.ltb_spec p 22); [| lia].
    rewrite u8_small by (unfold TOTAL_PINS, DIGITAL_PINS in Hfit; lia).
    f_equal. lia.
  - destruct (Z.ltb_spec p 14); [lia |].
    destruct (Z.ltb_spec p 22); [lia | reflexivity].
Qed.

Lemma readPin_translation_witness :
  readPin 14 3 false = (3%Z, false) /\
  readPin 14 16 false = (16%Z, false) /\
  readPin 14 22 false = (0%Z, true).
Proof.
  destruct (readPin_translation 14 3 false) as (H1 & _ & _);
    [lia | unfold TOTAL_PINS, DIGITAL_PINS; lia |].
  destruct (readPin_translation 14 16 false) as (_ & H2 & _);
    [lia | unfold TOTAL_PINS, DIGITAL_PINS; lia |].
  destruct (readPin_translation 14 22 false) as (_ & _ & H3);
    [lia | unfold TOTAL_PINS, DIGITAL_PINS; lia |].
  split; [apply H1; unfold DIGITAL_PINS; lia |].
  split; [apply H2 | apply H3]; unfold TOTAL_PINS, DIGITAL_PINS; lia.
Defined.

(** C5: a pin-addressed command whose pin index is [TOTAL_PINS] or more
    only raises [hasError]: no pin is driven, the channel table and its
    count are as before, nothing is written until the response, and the
    response is the byte [ERROR_CODE] alone. *)
Theorem executeBufferedCommand_bad_pin (A0 : Z) (env : Env) (st : Firmware) :
  pinAddressed (byteAt 0 st) -> (TOTAL_PINS <= byteAt 1 st)%Z ->
  exists st',
    executeBufferedCommand A0 env st = Returned st' /\
    st' = set_result (mkResult true false false 0) st /\
    hasError (result st') = true /\
    pinLog st' = pinLog st /\
    softPWM st' = softPWM st /\
    softPWMCount st' = softPWMCount st /\
    serialOut st' = serialOut st /\
    pinLog (sendResponse st') = pinLog st /\
    softPWM (sendResponse st') = softPWM st /\
    softPWMCount (sendResponse st') = softPWMCount st /\
    serialOut (sendResponse st') = serialOut st ++ [ERROR_CODE].
Proof.
  intros Hop Hpin. eexists. split; [| split; [reflexivity |]].
  - unfold executeBufferedCommand.
    change (byteAt 0 (set_result _ st)) with (byteAt 0 st).
    change (byteAt 1 (set_result _ st)) with (byteAt 1 st).
    assert (Hgate : negb (byteAt 0 st =? CMD_NOP)%Z
                    && negb (byteAt 0 st =? CMD_RESET)%Z
                    && negb (byteAt 0 st =? CMD_INFO)%Z = true).
    { unfold pinAddressed, CMD_DIGITALREAD, CMD_DIGITALWRITE, CMD_ANALOGREAD,
        CMD_ANALOGWRITE, CMD_PINMODE in Hop.
      unfold CMD_NOP, CMD_RESET, CMD_INFO.
      destruct Hop as [-> | [-> | [-> | [-> | ->]]]]; reflexivity. }
    rewrite Hgate.
    assert (Hrp : readPin A0 (byteAt 1 st) false = (0%Z, true)).
    { unfold readPin, TOTAL_PINS, DIGITAL_PINS in *.
      destruct (Z.ltb_spec (byteAt 1 st) 14); [lia |].
      destruct (Z.ltb_spec (byteAt 1 st) 22); [lia | reflexivity]. }
    rewrite Hrp. reflexivity.
  - repeat split.
Qed.

Lemma executeBufferedCommand_bad_pin_witness :
  exists st',
    executeBufferedCommand 14 (mkEnv 0 0 (fun _ => 1%Z) (fun _ => 1023%Z) 1500)
      (set_bufferIndex 2 (set_commandBuffer [2; 22; 0; 0; 0; 0; 0; 0; 0; 0]%Z initFirmware))
    = Returned st' /\
    serialOut (sendResponse st') = [ERROR_CODE].
Proof.
  destruct (executeBufferedCommand_bad_pin 14
              (mkEnv 0 0 (fun _ => 1%Z) (fun _ => 1023%Z) 1500)
              (set_bufferIndex 2
                 (set_commandBuffer [2; 22; 0; 0; 0; 0; 0; 0; 0; 0]%Z initFirmware)))
    as (st' & Hrun & _ & _ & _ & _ & _ & _ & _ & _ & _ & Hout).
  - left. reflexivity.
  - unfold TOTAL_PINS. vm_compute. discriminate.
  - exists st'. split; [exact Hrun | exact Hout].
Defined.

(** ** The channel table stays within bounds *)

#[local] Arguments Nat.modulo : simpl never.

Lemma MAX_SOFT_PWM_byte : (MAX_SOFT_PWM < 256)%nat.
Proof. unfold MAX_SOFT_PWM. lia. Qed.

Lemma tableInv_init : tableInv initFirmware.
Proof.
  unfold tableInv, initFirmware; simpl.
  split; [unfold MAX_SOFT_PWM; lia |]. split; [reflexivity | constructor].
Qed.

Lemma tableInv_touch (i : nat) (st : Firmware) :
  tableInv st -> (i < softPWMCount st)%nat -> tableInv (touch i st).
Proof.
  intros (Hc & Hl & Hlog) Hi. unfold tableInv, touch; simpl.
  repeat split; try assumption.
  apply Forall_app. split; [assumption |].
  constructor; [| constructor]. split; simpl; lia.
Qed.

Lemma tableInv_writeSlot (i : nat) (c : SoftPWM) (st : Firmware) :
  tableInv st -> (i < softPWMCount st)%nat -> tableInv (writeSlot i c st).
Proof.
  intros (Hc & Hl & Hlog) Hi. unfold writeSlot. apply tableInv_touch; [| exact Hi].
  unfold tableInv; simpl. rewrite length_insert. auto.
Qed.

Lemma tableInv_modifySlot (i : nat) (f : SoftPWM -> SoftPWM) (st : Firmware) :
  tableInv st -> (i < softPWMCount st)%nat -> tableInv (modifySlot i f st).
Proof. apply tableInv_writeSlot. Qed.

(** The search of [setPWM] reads slots below the count only, changes
    nothing but the log and stops at an index that the remaining
    iterations allow. *)
Lemma scanSlot_inv (p : Z) (n : nat) :
  forall (i : nat) (st : Firmware),
    tableInv st -> (i + n <= softPWMCount st)%nat ->
    tableInv (scanSlot p n i st).2 /\
    (i <= (scanSlot p n i st).1 <= i + n)%nat /\
    softPWMCount (scanSlot p n i st).2 = softPWMCount st.
Proof.
  induction n as [| n IH]; intros i st Hinv Hn; simpl.
  - split; [assumption |]. split; [lia | reflexivity].
  - destruct ((pin (slot i st) =? p)%Z || negb (enabled (slot i st))); simpl.
    + split; [apply tableInv_touch; [assumption | lia] |]. split; [lia | reflexivity].
    + destruct (IH (S i) (touch i st)) as (H1 & H2 & H3).
      * apply tableInv_touch; [assumption | lia].
      * simpl. lia.
      * split; [exact H1 |]. split; [lia | exact H3].
Qed.

Lemma tableInv_setPWM (p duty now : Z) (st : Firmware) :
  tableInv st -> tableInv (setPWM p duty now st).2.
Proof.
  intros Hinv. unfold setPWM.
  destruct (isHardwarePWMPin p); [exact Hinv |].
  destruct (scanSlot_inv p (softPWMCount (digitalWrite p LOW st)) 0
              (digitalWrite p LOW st)) as (H1 & H2 & H3);
    [exact Hinv | simpl; lia |].
  destruct (scanSlot p (softPWMCount (digitalWrite p LOW st)) 0
              (digitalWrite p LOW st)) as [index st2] eqn:Hscan.
  simpl in H1, H2, H3.
  destruct (Nat.leb_spec MAX_SOFT_PWM index) as [Hfull | Hroom]; [exact H1 |].
  destruct (duty =? 0)%Z; simpl.
  - destruct (Nat.ltb_spec index (softPWMCount st2)); [| exact H1].
    apply tableInv_modifySlot; assumption.
  - destruct (Nat.eqb_spec index (softPWMCount st2)) as [Heq | Hne].
    + apply tableInv_writeSlot.
      * destruct H1 as (Hc & Hl & Hlog). unfold tableInv; simpl.
        pose proof MAX_SOFT_PWM_byte.
        rewrite Nat.mod_small by lia. repeat split; [lia | assumption | assumption].
      * simpl. pose proof MAX_SOFT_PWM_byte. rewrite Nat.mod_small by lia. lia.
    + apply tableInv_writeSlot; [exact H1 | lia].
Qed.

Lemma resetScan_inv (p : Z) (n : nat) :
  forall (i : nat) (st : Firmware),
    tableInv st -> (i + n <= softPWMCount st)%nat ->
    tableInv (resetScan p n i st).
Proof.
  induction n as [| n IH]; intros i st Hinv Hn; simpl; [assumption |].
  destruct (pin (slot i st) =? p)%Z.
  - apply tableInv_modifySlot; [apply tableInv_touch; [assumption | lia] | simpl; lia].
  - apply IH; [apply tableInv_touch; [assumption | lia] | simpl; lia].
Qed.

Lemma tableInv_updateBody (now : Z) (i : nat) (st : Firmware) :
  tableInv st -> (i < softPWMCount st)%nat ->
  tableInv (updateBody now i st) /\
  softPWMCount (updateBody now i st) = softPWMCount st.
Proof.
  intros Hinv Hi. unfold updateBody, readSlot.
  assert (Ht : tableInv (touch i st)) by (apply tableInv_touch; assumption).
  destruct (negb (enabled (slot i st))); [split; [exact Ht | reflexivity] |].
  destruct (state (slot i st) && _).
  - split; [| reflexivity]. apply tableInv_modifySlot; [exact Ht | exact Hi].
  - destruct (negb (state (slot i st)) && _); [| split; [exact Ht | reflexivity]].
    split; [| reflexivity].
    apply tableInv_modifySlot; [apply tableInv_modifySlot |]; [exact Ht | exact Hi | exact Hi].
Qed.

Lemma updateLoop_inv (now : Z) (n : nat) :
  forall (i : nat) (st : Firmware),
    tableInv st -> (i + n <= softPWMCount st)%nat ->
    tableInv (updateLoop now n i st).
Proof.
  induction n as [| n IH]; intros i st Hinv Hn; simpl; [assumption |].
  destruct (tableInv_updateBody now i st) as [Hb Hc]; [assumption | lia |].
  apply IH; [exact Hb | rewrite Hc; lia].
Qed.

(** C10: in every state reached from the initial one by calls of [setPWM],
    [resetPWM] and [updateSoftPWM], [softPWMCount] is at most
    [MAX_SOFT_PWM], the table has [MAX_SOFT_PWM] slots, and every slot
    access made on the way had an index below the value of [softPWMCount]
    at that moment, itself at most [MAX_SOFT_PWM]. *)
Theorem reachable_table_bounds (st : Firmware) :
  reachable st ->
  (0 <= softPWMCount st <= MAX_SOFT_PWM)%nat /\
  length (softPWM st) = MAX_SOFT_PWM /\
  Forall (fun a : nat * nat =>
            (a.1 < a.2)%nat /\ (a.2 <= MAX_SOFT_PWM)%nat /\
            (a.1 < length (softPWM st))%nat)
         (slotLog st).
Proof.
  intros Hreach.
  assert (Hinv : tableInv st).
  { induction Hreach as [| p duty now st _ IH | p st _ IH | now st _ IH].
    - apply tableInv_init.
    - apply tableInv_setPWM, IH.
    - apply resetScan_inv; [exact IH | lia].
    - apply updateLoop_inv; [exact IH | lia]. }
  destruct Hinv as (Hc & Hl & Hlog).
  split; [lia |]. split; [exact Hl |].
  eapply Forall_impl; [exact Hlog |].
  intros a [H1 H2]. rewrite Hl. repeat split; lia.
Qed.

Lemma reachable_table_bounds_witness :
  let st := updateSoftPWM 40
              (resetPWM 4 (setPWM 4 200 7 (setPWM 2 100 5 initFirmware).2).2) in
  softPWMCount st = 2%nat /\
  slotLog st = [(0, 1); (0, 1); (1, 2); (0, 2); (1, 2); (1, 2); (0, 2);
                (0, 2); (0, 2); (1, 2)]%nat /\
  (0 <= softPWMCount st <= MAX_SOFT_PWM)%nat /\
  length (softPWM st) = MAX_SOFT_PWM /\
  Forall (fun a : nat * nat =>
            (a.1 < a.2)%nat /\ (a.2 <= MAX_SOFT_PWM)%nat /\
            (a.1 < length (softPWM st))%nat)
         (slotLog st).
Proof.
  split; [reflexivity |]. split; [vm_compute; reflexivity |].
  apply (reachable_table_bounds
           (updateSoftPWM 40
              (resetPWM 4 (setPWM 4 200 7 (setPWM 2 100 5 initFirmware).2).2))).
  apply reach_updateSoftPWM, reach_resetPWM, reach_setPWM, reach_setPWM, reach_init.
Defined.

(** ** Exhaustion of the channel table *)

Lemma slot_lookup (i : nat) (c : SoftPWM) (st : Firmware) :
  softPWM st !! i = Some c -> slot i st = c.
Proof. unfold slot. intros ->. reflexivity. Qed.

(** The search of [setPWM] changes the access log only. *)
Lemma scanSlot_frame (p : Z) (n : nat) :
  forall (i : nat) (st : Firmware),
    (scanSlot p n i st).2 = set_slotLog (slotLog (scanSlot p n i st).2) st.
Proof.
  induction n as [| n IH]; intros i st; simpl.
  - destruct st; reflexivity.
  - destruct ((pin (slot i st) =? p)%Z || negb (enabled (slot i st))); simpl.
    + destruct st; reflexivity.
    + rewrite IH at 1. destruct st; reflexivity.
Qed.

(** When every slot it looks at is enabled and on another pin, the search
    ends at the count. *)
Lemma scanSlot_none (p : Z) (n : nat) :
  forall (i : nat) (st : Firmware),
    (forall j, (i <= j < i + n)%nat ->
               pin (slot j st) <> p /\ enabled (slot j st) = true) ->
    (scanSlot p n i st).1 = (i + n)%nat.
Proof.
  induction n as [| n IH]; intros i st Hall; simpl; [lia |].
  destruct (Hall i) as [Hpin Hen]; [lia |].
  destruct (Z.eqb_spec (pin (slot i st)) p) as [Heq | _]; [contradiction |].
  rewrite Hen. simpl. rewrite IH; [lia |].
  intros j Hj. apply (Hall j). lia.
Qed.

Lemma setPWM_full (p duty now : Z) (st : Firmware) :
  isHardwarePWMPin p = false -> tableFull p st ->
  exists st',
    setPWM p duty now st = (false, st') /\
    st' = set_slotLog (slotLog st') (digitalWrite p LOW st).
Proof.
  intros Hhw (Hcount & Hlen & Hslots). unfold setPWM. rewrite Hhw.
  pose proof (scanSlot_frame p (softPWMCount (digitalWrite p LOW st)) 0
                (digitalWrite p LOW st)) as Hframe.
  pose proof (scanSlot_none p (softPWMCount (digitalWrite p LOW st)) 0
                (digitalWrite p LOW st)) as Hnone.
  destruct (scanSlot p (softPWMCount (digitalWrite p LOW st)) 0
              (digitalWrite p LOW st)) as [index st2].
  simpl in Hframe, Hnone.
  rewrite Hnone.
  - rewrite Hcount, Nat.leb_refl. exists st2. split; [reflexivity | exact Hframe].
  - intros j Hj.
    destruct (lookup_lt_is_Some_2 (softPWM st) j) as [c Hc]; [lia |].
    change (slot j (digitalWrite p LOW st)) with (slot j st).
    rewrite (slot_lookup j c st Hc). apply (Hslots j c); [lia | exact Hc].
Qed.

(** A call for a pin that no slot in use holds, while all of them are
    enabled and one more fits, takes the next slot. *)
Lemma setPWM_fresh (p duty now : Z) (st : Firmware) :
  isHardwarePWMPin p = false -> duty <> 0%Z ->
  (softPWMCount st < MAX_SOFT_PWM)%nat ->
  length (softPWM st) = MAX_SOFT_PWM ->
  (forall j c, (j < softPWMCount st)%nat -> softPWM st !! j = Some c ->
               pin c <> p /\ enabled c = true) ->
  exists st',
    setPWM p duty now st = (true, st') /\
    softPWMCount st' = S (softPWMCount st) /\
    softPWM st' = <[softPWMCount st := mkSoftPWM p duty now false true]> (softPWM st).
Proof.
  intros Hhw Hduty Hroom Hlen Hslots. unfold setPWM. rewrite Hhw.
  pose proof (scanSlot_frame p (softPWMCount (digitalWrite p LOW st)) 0
                (digitalWrite p LOW st)) as Hframe.
  pose proof (scanSlot_none p (softPWMCount (digitalWrite p LOW st)) 0
                (digitalWrite p LOW st)) as Hnone.
  destruct (scanSlot p (softPWMCount (digitalWrite p LOW st)) 0
              (digitalWrite p LOW st)) as [index st2].
  simpl in Hframe, Hnone.
  rewrite Hnone.
  - destruct (Nat.leb_spec MAX_SOFT_PWM (softPWMCount st)); [lia |].
    destruct (Z.eqb_spec duty 0); [contradiction |].
    rewrite Hframe. simpl. rewrite Nat.eqb_refl.
    eexists. split; [reflexivity |]. simpl.
    pose proof MAX_SOFT_PWM_byte. rewrite Nat.mod_small by lia.
    split; reflexivity.
  - intros j Hj.
    destruct (lookup_lt_is_Some_2 (softPWM st) j) as [c Hc]; [lia |].
    change (slot j (digitalWrite p LOW st)) with (slot j st).
    rewrite (slot_lookup j c st Hc). apply (Hslots j c); [lia | exact Hc].
Qed.

(** Calls for distinct fresh pins fill the table one slot each; the call
    that finds it full fails. *)
Lemma runSetPWM_fill (calls : list (Z * Z * Z)) :
  forall (st : Firmware) (used : list Z),
    length (softPWM st) = MAX_SOFT_PWM ->
    (softPWMCount st <= MAX_SOFT_PWM)%nat ->
    (forall j c, (j < softPWMCount st)%nat -> softPWM st !! j = Some c ->
                 enabled c = true /\ pin c ∈ used) ->
    NoDup (map (fun call => call.1.1) calls) ->
    (forall q, q ∈ map (fun call : Z * Z * Z => call.1.1) calls -> q ∉ used) ->
    Forall (fun call : Z * Z * Z =>
              isHardwarePWMPin call.1.1 = false /\ call.1.2 <> 0%Z) calls ->
    (softPWMCount st + length calls = S MAX_SOFT_PWM)%nat ->
    (runSetPWM calls st).1 = replicate (length calls - 1) true ++ [false].
Proof.
  induction calls as [| [[p duty] now] rest IH];
    intros st used Hlen Hcount Hslots Hnodup Hdisj Hcalls Htotal.
  - simpl in Htotal. lia.
  - simpl in Hnodup, Hdisj, Htotal. apply NoDup_cons in Hnodup as [Hp Hnodup].
    apply Forall_cons in Hcalls as [[Hhw Hduty] Hcalls]. simpl in Hhw, Hduty.
    assert (Hfree : forall j c, (j < softPWMCount st)%nat ->
                      softPWM st !! j = Some c -> pin c <> p /\ enabled c = true).
    { intros j c Hj Hc. destruct (Hslots j c Hj Hc) as [Hen Hin].
      split; [| exact Hen]. intros Heq. apply (Hdisj p); [left | rewrite <- Heq; exact Hin]. }
    simpl.
    destruct (Nat.eq_dec (softPWMCount st) MAX_SOFT_PWM) as [Hfull | Hroom].
    + destruct rest as [| call rest]; [| simpl in Htotal; lia].
      destruct (setPWM_full p duty now st Hhw) as (st' & Hrun & _).
      { split; [exact Hfull |]. split; [exact Hlen |].
        intros i c Hi. apply Hfree. lia. }
      rewrite Hrun. reflexivity.
    + destruct (setPWM_fresh p duty now st Hhw Hduty) as (st' & Hrun & Hc' & Ht');
        [lia | exact Hlen | exact Hfree |].
      rewrite Hrun.
      specialize (IH st' (p :: used)).
      destruct (runSetPWM rest st') as [oks st2]. simpl in IH |- *.
      rewrite IH.
      * destruct rest as [| call rest]; [simpl in Htotal; lia |].
        simpl. rewrite Nat.sub_0_r. reflexivity.
      * rewrite Ht', length_insert. exact Hlen.
      * lia.
      * intros j c Hj Hc. rewrite Ht' in Hc.
        destruct (Nat.eq_dec j (softPWMCount st)) as [-> | Hne].
        -- rewrite list_lookup_insert_eq in Hc by lia.
           injection Hc as <-. simpl. split; [reflexivity | left].
        -- rewrite list_lookup_insert_ne in Hc by lia.
           destruct (Hslots j c) as [Hen Hin]; [lia | exact Hc |].
           split; [exact Hen | right; exact Hin].
      * exact Hnodup.
      * intros q Hq [-> | Hin]%elem_of_cons; [contradiction |].
        apply (Hdisj q); [right; exact Hq | exact Hin].
      * exact Hcalls.
      * simpl in Htotal. lia.
Qed.

Lemma tableFull_sixChannels : tableFull 14 sixChannels.
Proof.
  split; [reflexivity |]. split; [reflexivity |].
  intros i c Hi Hc. unfold MAX_SOFT_PWM in Hi.
  do 6 (destruct i as [| i];
        [injection Hc as <-; split; [discriminate | reflexivity] |]).
  lia.
Qed.

(** C3, as the code has it: with [MAX_SOFT_PWM] channels in use, all
    enabled and none on pin [p], [setPWM(p, duty)] for a pin without
    hardware PWM and a nonzero duty fails and leaves the table, the count,
    the serial output and the command state as they were; the pin has been
    driven low before the search, and that is its only effect.  From the
    initial state, [MAX_SOFT_PWM + 1] calls with nonzero duty for distinct
    pins without hardware PWM succeed [MAX_SOFT_PWM] times and then
    fail. *)
Theorem setPWM_table_full (p duty now : Z) (st : Firmware) :
  isHardwarePWMPin p = false -> duty <> 0%Z -> tableFull p st ->
  (exists st',
     setPWM p duty now st = (false, st') /\
     softPWM st' = softPWM st /\
     softPWMCount st' = softPWMCount st /\
     pinLog st' = pinLog st ++ [DigitalWrite p LOW] /\
     serialOut st' = serialOut st /\
     commandBuffer st' = commandBuffer st /\
     bufferIndex st' = bufferIndex st /\
     result st' = result st) /\
  (forall calls : list (Z * Z * Z),
     length calls = S MAX_SOFT_PWM ->
     NoDup (map (fun call => call.1.1) calls) ->
     Forall (fun call : Z * Z * Z =>
               isHardwarePWMPin call.1.1 = false /\ call.1.2 <> 0%Z) calls ->
     (runSetPWM calls initFirmware).1 = replicate MAX_SOFT_PWM true ++ [false]).
Proof.
  intros Hhw Hduty Hfull. split.
  - destruct (setPWM_full p duty now st Hhw Hfull) as (st' & Hrun & Hst').
    exists st'. split; [exact Hrun |]. rewrite Hst'. repeat split.
  - intros calls Hlen Hnodup Hcalls.
    rewrite (runSetPWM_fill calls initFirmware []); try assumption.
    + rewrite Hlen. reflexivity.
    + reflexivity.
    + simpl. lia.
    + simpl. intros j c Hj. lia.
    + intros q _ Hq. inversion Hq.
Qed.

Lemma setPWM_table_full_witness :
  (exists st',
     setPWM 14 100 6 sixChannels = (false, st') /\
     softPWM st' = softPWM sixChannels /\
     pinLog st' = pinLog sixChannels ++ [DigitalWrite 14 LOW]) /\
  (runSetPWM sevenCalls initFirmware).1 = [true; true; true; true; true; true; false].
Proof.
  destruct (setPWM_table_full 14 100 6 sixChannels) as [Hone Hseq].
  - reflexivity.
  - discriminate.
  - exact tableFull_sixChannels.
  - split.
    + destruct Hone as (st' & Hrun & Ht & _ & Hp & _).
      exists st'. split; [exact Hrun |]. split; [exact Ht | exact Hp].
    + apply (Hseq sevenCalls).
      * reflexivity.
      * apply (bool_decide_unpack _). vm_compute. exact I.
      * repeat constructor; discriminate.
Defined.

(** C3 as stated fails: the refused call has driven the pin low, so it is
    not without effect. *)
Lemma setPWM_table_full_side_effect :
  isHardwarePWMPin 14 = false /\ tableFull 14 sixChannels /\
  (setPWM 14 100 6 sixChannels).1 = false /\
  pinLog (setPWM 14 100 6 sixChannels).2
  = pinLog sixChannels ++ [DigitalWrite 14 LOW] /\
  ~ (pinLog (setPWM 14 100 6 sixChannels).2 = pinLog sixChannels /\
     softPWM (setPWM 14 100 6 sixChannels).2 = softPWM sixChannels /\
     softPWMCount (setPWM 14 100 6 sixChannels).2 = softPWMCount sixChannels).
Proof.
  split; [reflexivity |]. split; [exact tableFull_sixChannels |].
  split; [reflexivity |]. split; [reflexivity |].
  intros [Hlog _]. vm_compute in Hlog. discriminate Hlog.
Qed.

(** ** The software-PWM scheduler *)

(** An iteration of the loop of [updateSoftPWM] leaves the other slots and
    the count alone. *)
Lemma updateBody_other (now : Z) (i j : nat) (st : Firmware) :
  i <> j ->
  softPWM (updateBody now j st) !! i = softPWM st !! i.
Proof.
  intros Hne. unfold updateBody, readSlot.
  destruct (negb (enabled (slot j st))); [reflexivity |].
  destruct (state (slot j st) && _); simpl.
  - apply list_lookup_insert_ne. congruence.
  - destruct (negb (state (slot j st)) && _); simpl; [| reflexivity].
    rewrite !list_lookup_insert_ne by congruence. reflexivity.
Qed.

Lemma updateLoop_other (now : Z) (i n : nat) :
  forall (j : nat) (st : Firmware),
    (i < j \/ j + n <= i)%nat ->
    softPWM (updateLoop now n j st) !! i = softPWM st !! i.
Proof.
  induction n as [| n IH]; intros j st Hout; simpl; [reflexivity |].
  rewrite IH by lia. apply updateBody_other. lia.
Qed.

Lemma updateLoop_split (now : Z) (a b : nat) :
  forall (j : nat) (st : Firmware),
    updateLoop now (a + b) j st = updateLoop now b (j + a) (updateLoop now a j st).
Proof.
  induction a as [| a IH]; intros j st; simpl.
  - rewrite Nat.add_0_r. reflexivity.
  - rewrite IH. f_equal. lia.
Qed.

Lemma slot_modifySlot (i j : nat) (f : SoftPWM -> SoftPWM) (st : Firmware) :
  slot j (modifySlot i f st)
  = if decide (j = i /\ (i < length (softPWM st))%nat) then f (slot i st)
    else slot j st.
Proof.
  unfold modifySlot, writeSlot, touch, slot; simpl. case_decide as H.
  - destruct H as [-> Hi]. rewrite list_lookup_insert_eq by exact Hi. reflexivity.
  - destruct (decide (i = j)) as [-> | Hne].
    + rewrite list_insert_ge by lia. reflexivity.
    + rewrite list_lookup_insert_ne by exact Hne. reflexivity.
Qed.

Lemma length_modifySlot (i : nat) (f : SoftPWM -> SoftPWM) (st : Firmware) :
  length (softPWM (modifySlot i f st)) = length (softPWM st).
Proof. unfold modifySlot, writeSlot, touch; simpl. apply length_insert. Qed.

(** One iteration changes nothing but [state] and [lastToggle], and those
    of its own slot only, when the slot is an enabled channel. *)
Lemma updateBody_slot (now : Z) (i j : nat) (st : Firmware) :
  pin (slot j (updateBody now i st)) = pin (slot j st) /\
  dutyCycle (slot j (updateBody now i st)) = dutyCycle (slot j st) /\
  enabled (slot j (updateBody now i st)) = enabled (slot j st) /\
  (j <> i \/ enabled (slot j st) = false -> slot j (updateBody now i st) = slot j st).
Proof.
  unfold updateBody, readSlot.
  destruct (enabled (slot i st)) eqn:Hen; simpl;
    [| repeat split; reflexivity].
  destruct (state (slot i st) && _); simpl.
  - rewrite slot_modifySlot.
    change (slot i (digitalWrite _ _ (touch i st))) with (slot i st).
    change (slot j (digitalWrite _ _ (touch i st))) with (slot j st).
    case_decide as H.
    + destruct H as [-> _]. repeat split; try reflexivity.
      intros [Hne | Hdis]; [contradiction | congruence].
    + repeat split; reflexivity.
  - destruct (negb (state (slot i st)) && _); simpl; [| repeat split; reflexivity].
    rewrite !slot_modifySlot, length_modifySlot.
    change (slot i (digitalWrite _ _ (touch i st))) with (slot i st).
    change (slot j (digitalWrite _ _ (touch i st))) with (slot j st).
    change (length (softPWM (digitalWrite _ _ (touch i st))))
      with (length (softPWM st)).
    case_decide as H.
    + destruct H as [-> Hi].
      rewrite decide_True by (split; [reflexivity | exact Hi]).
      repeat split; try reflexivity.
      intros [Hne | Hdis]; [contradiction | congruence].
    + repeat split; reflexivity.
Qed.

Lemma updateBody_rest (now : Z) (i : nat) (st : Firmware) :
  softPWMCount (updateBody now i st) = softPWMCount st /\
  length (softPWM (updateBody now i st)) = length (softPWM st) /\
  serialOut (updateBody now i st) = serialOut st /\
  (pinLog (updateBody now i st) = pinLog st \/
   enabled (slot i st) = true /\
   exists v, pinLog (updateBody now i st)
             = pinLog st ++ [DigitalWrite (pin (slot i st)) v]).
Proof.
  unfold updateBody, readSlot.
  destruct (enabled (slot i st)) eqn:Hen; simpl;
    [| repeat split; left; reflexivity].
  destruct (state (slot i st) && _); simpl.
  - unfold modifySlot, writeSlot, touch; simpl. rewrite ?length_insert.
    repeat split. right. split; [reflexivity |]. exists LOW. reflexivity.
  - destruct (negb (state (slot i st)) && _); simpl;
      [| repeat split; left; reflexivity].
    unfold modifySlot, writeSlot, touch; simpl. rewrite ?length_insert.
    repeat split. right. split; [reflexivity |]. exists HIGH. reflexivity.
Qed.

Lemma updateLoop_frame (now : Z) (n : nat) :
  forall (i : nat) (st : Firmware),
    softPWMCount (updateLoop now n i st) = softPWMCount st /\
    length (softPWM (updateLoop now n i st)) = length (softPWM st) /\
    serialOut (updateLoop now n i st) = serialOut st /\
    (forall j,
        pin (slot j (updateLoop now n i st)) = pin (slot j st) /\
        dutyCycle (slot j (updateLoop now n i st)) = dutyCycle (slot j st) /\
        enabled (slot j (updateLoop now n i st)) = enabled (slot j st) /\
        (enabled (slot j st) = false \/ (j < i)%nat \/ (i + n <= j)%nat ->
         slot j (updateLoop now n i st) = slot j st)) /\
    exists evs,
      pinLog (updateLoop now n i st) = pinLog st ++ evs /\
      Forall (fun ev => exists j v,
                  (i <= j < i + n)%nat /\ enabled (slot j st) = true /\
                  ev = DigitalWrite (pin (slot j st)) v) evs.
Proof.
  induction n as [| n IH]; intros i st; simpl.
  - repeat split. exists []. rewrite app_nil_r. split; [reflexivity | constructor].
  - destruct (IH (S i) (updateBody now i st)) as (Hc & Hl & Hs & Hslots & evs & Hlog & Hevs).
    destruct (updateBody_rest now i st) as (Hc1 & Hl1 & Hs1 & Hlog1).
    split; [congruence |]. split; [congruence |]. split; [congruence |]. split.
    + intros j. destruct (Hslots j) as (Hp & Hd & He & Hsame).
      destruct (updateBody_slot now i j st) as (Hp1 & Hd1 & He1 & Hsame1).
      split; [congruence |]. split; [congruence |]. split; [congruence |].
      intros Hout. rewrite Hsame.
      * apply Hsame1. destruct Hout as [Hdis | Hij]; [right; exact Hdis | left; lia].
      * rewrite He1. destruct Hout as [Hdis | Hij]; [left; exact Hdis | right; lia].
    + assert (Hevs' : Forall (fun ev => exists j v,
                  (i <= j < i + S n)%nat /\ enabled (slot j st) = true /\
                  ev = DigitalWrite (pin (slot j st)) v) evs).
      { eapply Forall_impl; [exact Hevs |].
        intros ev (j & v & Hj & Hen & ->).
        destruct (updateBody_slot now i j st) as (Hp1 & _ & He1 & _).
        exists j, v. split; [lia |]. split; [congruence |]. rewrite Hp1. reflexivity. }
      destruct Hlog1 as [Hsame | (Hen & v & Hone)].
      * exists evs. rewrite Hlog, Hsame. split; [reflexivity | exact Hevs'].
      * exists (DigitalWrite (pin (slot i st)) v :: evs).
        rewrite Hlog, Hone, <- app_assoc. split; [reflexivity |].
        constructor; [| exact Hevs'].
        exists i, v. split; [lia |]. split; [exact Hen | reflexivity].
Qed.

Lemma onTime_byte (c : SoftPWM) :
  (0 <= dutyCycle c < 256)%Z ->
  onTime c = (1000 / SOFT_PWM_FREQ * dutyCycle c / 255)%Z.
Proof.
  intros Hd. unfold onTime, period, u32, SOFT_PWM_FREQ.
  change (1000 / 50)%Z with 20%Z.
  rewrite Z.mod_small by lia. reflexivity.
Qed.

(** C1: for an enabled channel in slot [i], with [period] =
    [1000 / SOFT_PWM_FREQ], [onTime] = [period * dutyCycle / 255] and
    [elapsed] = [now - lastToggle] in [unsigned long] arithmetic (the plain
    difference as long as the clock has not wrapped since the last
    toggle), one call of [updateSoftPWM] does this: when the channel is on
    and [elapsed >= onTime], the pin is written low and the state becomes
    off, [lastToggle] staying as it was; otherwise, when the channel is off
    and [elapsed >= period], the pin is written high, the state becomes on
    and [lastToggle] becomes [now]; in every other case the channel stays
    as it was and no pin is written for it.  The slot and the pin log are
    those of the state the call returns: the log grows by the writes of
    the enabled channels in the slots before [i], then the write of the
    channel, then the writes of the enabled channels in the slots after
    [i].  The iteration on slot [i] finds the channel as the call found it,
    and acts on the table and on the log as stated. *)
Theorem updateSoftPWM_channel (now : Z) (st : Firmware) (i : nat) (c : SoftPWM) :
  (i < softPWMCount st)%nat -> softPWM st !! i = Some c ->
  enabled c = true -> (0 <= dutyCycle c < 256)%Z ->
  let periodMs := (1000 / SOFT_PWM_FREQ)%Z in
  let onTimeMs := (periodMs * dutyCycle c / 255)%Z in
  let elapsedMs := ((now - lastToggle c) mod 2 ^ 32)%Z in
  let before := updateLoop now i 0 st in
  let after := updateBody now i before in
  updateSoftPWM now st = updateLoop now (softPWMCount st - S i) (S i) after /\
  softPWM before !! i = Some c /\
  softPWM (updateSoftPWM now st) !! i = softPWM after !! i /\
  ((0 <= lastToggle c <= now)%Z /\ (now < 2 ^ 32)%Z ->
   elapsedMs = (now - lastToggle c)%Z) /\
  (state c = true -> (onTimeMs <= elapsedMs)%Z ->
   softPWM after
   = <[i := mkSoftPWM (pin c) (dutyCycle c) (lastToggle c) false true]>
       (softPWM before) /\
   pinLog after = pinLog before ++ [DigitalWrite (pin c) LOW]) /\
  (state c = false -> (periodMs <= elapsedMs)%Z ->
   softPWM after
   = <[i := mkSoftPWM (pin c) (dutyCycle c) now true true]> (softPWM before) /\
   pinLog after = pinLog before ++ [DigitalWrite (pin c) HIGH]) /\
  (~ (state c = true /\ (onTimeMs <= elapsedMs)%Z) ->
   ~ (state c = false /\ (periodMs <= elapsedMs)%Z) ->
   softPWM after = softPWM before /\ pinLog after = pinLog before) /\
  exists pre post,
    Forall (fun ev => exists j v,
                (j < i)%nat /\ enabled (slot j st) = true /\
                ev = DigitalWrite (pin (slot j st)) v) pre /\
    Forall (fun ev => exists j v,
                (i < j < softPWMCount st)%nat /\ enabled (slot j st) = true /\
                ev = DigitalWrite (pin (slot j st)) v) post /\
    pinLog before = pinLog st ++ pre /\
    pinLog (updateSoftPWM now st) = pinLog after ++ post /\
    (state c = true -> (onTimeMs <= elapsedMs)%Z ->
     softPWM (updateSoftPWM now st) !! i
     = Some (mkSoftPWM (pin c) (dutyCycle c) (lastToggle c) false true) /\
     pinLog (updateSoftPWM now st)
     = pinLog st ++ pre ++ [DigitalWrite (pin c) LOW] ++ post) /\
    (state c = false -> (periodMs <= elapsedMs)%Z ->
     softPWM (updateSoftPWM now st) !! i
     = Some (mkSoftPWM (pin c) (dutyCycle c) now true true) /\
     pinLog (updateSoftPWM now st)
     = pinLog st ++ pre ++ [DigitalWrite (pin c) HIGH] ++ post) /\
    (~ (state c = true /\ (onTimeMs <= elapsedMs)%Z) ->
     ~ (state c = false /\ (periodMs <= elapsedMs)%Z) ->
     softPWM (updateSoftPWM now st) !! i = Some c /\
     pinLog (updateSoftPWM now st) = pinLog st ++ pre ++ post).
Proof.
  intros Hi Hc Hen Hduty per on el before after.
  assert (Hsplit : updateSoftPWM now st
                   = updateLoop now (softPWMCount st - S i) (S i) after).
  { unfold updateSoftPWM.
    replace (softPWMCount st) with (i + S (softPWMCount st - S i))%nat at 1 by lia.
    rewrite updateLoop_split. reflexivity. }
  assert (Hbefore : softPWM before !! i = Some c).
  { unfold before. rewrite updateLoop_other by lia. exact Hc. }
  assert (Hslot : slot i before = c) by (unfold slot; rewrite Hbefore; reflexivity).
  assert (Hlen : (i < length (softPWM before))%nat)
    by (apply lookup_lt_is_Some_1; eauto).
  assert (Hon : onTime c = on) by (apply onTime_byte; exact Hduty).
  assert (Hel : elapsed now c = el) by reflexivity.
  assert (Hper : period = per) by reflexivity.
  assert (Hfinal : softPWM (updateSoftPWM now st) !! i = softPWM after !! i)
    by (rewrite Hsplit; apply updateLoop_other; lia).
  assert (Hcases :
    (state c = true -> (on <= el)%Z ->
     softPWM after
     = <[i := mkSoftPWM (pin c) (dutyCycle c) (lastToggle c) false true]>
         (softPWM before) /\
     pinLog after = pinLog before ++ [DigitalWrite (pin c) LOW]) /\
    (state c = false -> (per <= el)%Z ->
     softPWM after
     = <[i := mkSoftPWM (pin c) (dutyCycle c) now true true]> (softPWM before) /\
     pinLog after = pinLog before ++ [DigitalWrite (pin c) HIGH]) /\
    (~ (state c = true /\ (on <= el)%Z) ->
     ~ (state c = false /\ (per <= el)%Z) ->
     softPWM after = softPWM before /\ pinLog after = pinLog before)).
  { unfold after, updateBody, readSlot.
    rewrite Hslot, Hen, Hon, Hel, Hper. simpl negb. cbv iota.
    clear Hfinal Hsplit.
    destruct c as [cp cd ct cs ce]. simpl in *. subst ce.
    split; [| split].
    - intros -> Hge. simpl.
      destruct (Z.leb_spec on el); [| lia]. simpl.
      unfold slot; simpl. rewrite Hbefore. split; reflexivity.
    - intros -> Hge. simpl.
      destruct (Z.leb_spec per el); [| lia]. simpl.
      unfold modifySlot, slot; simpl.
      rewrite list_lookup_insert_eq by exact Hlen. rewrite Hbefore. simpl.
      rewrite list_insert_insert_eq. split; reflexivity.
    - intros Hnot1 Hnot2. destruct cs; simpl.
      + destruct (Z.leb_spec on el);
          [exfalso; apply Hnot1; split; [reflexivity | lia] |].
        split; reflexivity.
      + destruct (Z.leb_spec per el);
          [exfalso; apply Hnot2; split; [reflexivity | lia] |].
        split; reflexivity. }
  destruct Hcases as (Hfall & Hrise & Hkeep).
  split; [exact Hsplit |]. split; [exact Hbefore |]. split; [exact Hfinal |].
  split; [intros [H1 H2]; unfold el; apply Z.mod_small; lia |].
  split; [exact Hfall |]. split; [exact Hrise |]. split; [exact Hkeep |].
  destruct (updateLoop_frame now i 0 st) as (_ & _ & _ & Hslots0 & pre & Hpre & Hpre_ev).
  fold before in Hslots0, Hpre.
  destruct (updateLoop_frame now (softPWMCount st - S i) (S i) after)
    as (_ & _ & _ & _ & post & Hpost & Hpost_ev).
  rewrite <- Hsplit in Hpost.
  exists pre, post.
  split.
  { eapply Forall_impl; [exact Hpre_ev |].
    intros ev (j & v & Hj & Hej & ->). exists j, v.
    split; [lia |]. split; [exact Hej | reflexivity]. }
  split.
  { eapply Forall_impl; [exact Hpost_ev |].
    intros ev (j & v & Hj & Hej & ->). exists j, v.
    destruct (updateBody_slot now i j before) as (Hp1 & _ & He1 & _).
    fold after in Hp1, He1.
    destruct (Hslots0 j) as (Hp0 & _ & He0 & _).
    split; [lia |]. split; [congruence |]. f_equal. congruence. }
  split; [exact Hpre |]. split; [exact Hpost |].
  split; [| split].
  - intros Hs Hge. destruct (Hfall Hs Hge) as [Ht Hl]. split.
    + rewrite Hfinal, Ht. apply list_lookup_insert_eq. exact Hlen.
    + rewrite Hpost, Hl, Hpre, <- !app_assoc. reflexivity.
  - intros Hs Hge. destruct (Hrise Hs Hge) as [Ht Hl]. split.
    + rewrite Hfinal, Ht. apply list_lookup_insert_eq. exact Hlen.
    + rewrite Hpost, Hl, Hpre, <- !app_assoc. reflexivity.
  - intros Hn1 Hn2. destruct (Hkeep Hn1 Hn2) as [Ht Hl]. split.
    + rewrite Hfinal, Ht. exact Hbefore.
    + rewrite Hpost, Hl, Hpre, <- !app_assoc. reflexivity.
Qed.

Lemma updateSoftPWM_channel_witness :
  softPWM (updateSoftPWM 25 (setPWM 2 128 0 initFirmware).2) !! 0%nat
  = Some (mkSoftPWM 2 128 25 true true) /\
  pinLog (updateSoftPWM 25 (setPWM 2 128 0 initFirmware).2)
  = [DigitalWrite 2 LOW; DigitalWrite 2 HIGH].
Proof.
  destruct (updateSoftPWM_channel 25 (setPWM 2 128 0 initFirmware).2 0
              (mkSoftPWM 2 128 0 false true))
    as (_ & _ & _ & _ & _ & _ & _ & pre & post & Hpre & Hpost & _ & _ & _ & Hrise & _).
  - vm_compute. lia.
  - reflexivity.
  - reflexivity.
  - simpl. lia.
  - destruct Hrise as [Htable Hpins].
    + reflexivity.
    + vm_compute. discriminate.
    + assert (pre = []) as ->.
      { destruct pre as [| ev pre]; [reflexivity |].
        apply Forall_cons in Hpre as [(j & v & Hj & _) _]. lia. }
      assert (post = []) as ->.
      { destruct post as [| ev post]; [reflexivity |].
        apply Forall_cons in Hpost as [(j & v & Hj & _) _].
        vm_compute in Hj. lia. }
      split; [exact Htable | exact Hpins].
Defined.

(** ** The command buffer across a pass of the main loop *)

Lemma sameBuffer_refl (st : Firmware) : sameBuffer st st.
Proof. split; reflexivity. Qed.

Lemma sameBuffer_trans (st1 st2 st3 : Firmware) :
  sameBuffer st1 st2 -> sameBuffer st2 st3 -> sameBuffer st1 st3.
Proof. intros [H1 H2] [H3 H4]. split; congruence. Qed.

(** The scheduler and the response encoder do not touch the buffer. *)
Lemma sameBuffer_scanSlot (p : Z) (n i : nat) (st : Firmware) :
  sameBuffer st (scanSlot p n i st).2.
Proof. rewrite scanSlot_frame. split; reflexivity. Qed.

Lemma sameBuffer_setPWM (p duty now : Z) (st : Firmware) :
  sameBuffer st (setPWM p duty now st).2.
Proof.
  unfold setPWM. destruct (isHardwarePWMPin p); [split; reflexivity |].
  pose proof (sameBuffer_scanSlot p (softPWMCount (digitalWrite p LOW st)) 0
                (digitalWrite p LOW st)) as Hscan.
  destruct (scanSlot p (softPWMCount (digitalWrite p LOW st)) 0
              (digitalWrite p LOW st)) as [index st2].
  simpl in Hscan. destruct Hscan as [Hb Hi].
  destruct (MAX_SOFT_PWM <=? index)%nat; [split; assumption |].
  destruct (duty =? 0)%Z; simpl.
  - destruct (index <? softPWMCount st2)%nat; split; assumption.
  - destruct (index =? softPWMCount st2)%nat; split; assumption.
Qed.

Lemma sameBuffer_resetScan (p : Z) (n : nat) :
  forall (i : nat) (st : Firmware), sameBuffer st (resetScan p n i st).
Proof.
  induction n as [| n IH]; intros i st; simpl; [apply sameBuffer_refl |].
  destruct (pin (slot i st) =? p)%Z; [split; reflexivity |].
  apply (sameBuffer_trans st (touch i st)); [split; reflexivity | apply IH].
Qed.

Lemma sameBuffer_updateBody (now : Z) (i : nat) (st : Firmware) :
  sameBuffer st (updateBody now i st).
Proof.
  unfold updateBody, readSlot.
  destruct (negb (enabled (slot i st))); [split; reflexivity |].
  destruct (state (slot i st) && _); [split; reflexivity |].
  destruct (negb (state (slot i st)) && _); split; reflexivity.
Qed.

Lemma sameBuffer_updateLoop (now : Z) (n : nat) :
  forall (i : nat) (st : Firmware), sameBuffer st (updateLoop now n i st).
Proof.
  induction n as [| n IH]; intros i st; simpl; [apply sameBuffer_refl |].
  eapply sameBuffer_trans; [apply sameBuffer_updateBody | apply IH].
Qed.

Lemma sameBuffer_serialWriteAll (bs : list Z) :
  forall st : Firmware, sameBuffer st (serialWriteAll bs st).
Proof.
  unfold serialWriteAll.
  induction bs as [| b bs IH]; intros st; simpl; [apply sameBuffer_refl |].
  eapply sameBuffer_trans; [| apply IH]. split; reflexivity.
Qed.

Lemma sameBuffer_serialWrite (b : Z) (st : Firmware) :
  sameBuffer st (serialWrite b st).
Proof. split; reflexivity. Qed.

Lemma sameBuffer_sendUInt16 (v : Z) (st : Firmware) :
  sameBuffer st (sendUInt16 v st).
Proof. split; reflexivity. Qed.

Lemma sameBuffer_sendUInt32 (v : Z) (st : Firmware) :
  sameBuffer st (sendUInt32 v st).
Proof. split; reflexivity. Qed.

(** A step that keeps the buffer, after steps that keep it. *)
Lemma sameBuffer_step (f : Firmware -> Firmware) (st0 st : Firmware) :
  (forall s, sameBuffer s (f s)) -> sameBuffer st0 st -> sameBuffer st0 (f st).
Proof. intros Hf H. eapply sameBuffer_trans; [exact H | apply Hf]. Qed.

Lemma sameBuffer_sendInfo (env : Env) (st : Firmware) :
  sameBuffer st (sendInfo env st).
Proof.
  unfold sendInfo. cbv zeta.
  repeat lazymatch goal with
    | |- sameBuffer _ (serialWriteAll ?bs _) =>
        apply (sameBuffer_step (serialWriteAll bs)); [apply sameBuffer_serialWriteAll |]
    | |- sameBuffer _ (serialWrite ?b _) =>
        apply (sameBuffer_step (serialWrite b)); [apply sameBuffer_serialWrite |]
    | |- sameBuffer _ (sendUInt32 ?v _) =>
        apply (sameBuffer_step (sendUInt32 v)); [apply sameBuffer_sendUInt32 |]
    | |- sameBuffer _ (sendUInt16 ?v _) =>
        apply (sameBuffer_step (sendUInt16 v)); [apply sameBuffer_sendUInt16 |]
    end.
  apply sameBuffer_refl.
Qed.

Lemma sameBuffer_sendResponse (st : Firmware) : sameBuffer st (sendResponse st).
Proof.
  unfold sendResponse.
  destruct (hasError (result st)); [split; reflexivity |].
  destruct (hasOutput (result st)); [| split; reflexivity].
  destruct (isTwoByteOutput (result st)); split; reflexivity.
Qed.

Lemma sameBuffer_set_hasError (b : bool) (st : Firmware) :
  sameBuffer st (set_hasError b st).
Proof. split; reflexivity. Qed.

Lemma sameBuffer_set_hasOutput (b : bool) (st : Firmware) :
  sameBuffer st (set_hasOutput b st).
Proof. split; reflexivity. Qed.

Lemma sameBuffer_set_isTwoByteOutput (b : bool) (st : Firmware) :
  sameBuffer st (set_isTwoByteOutput b st).
Proof. split; reflexivity. Qed.

Lemma sameBuffer_set_outputValue (v : Z) (st : Firmware) :
  sameBuffer st (set_outputValue v st).
Proof. split; reflexivity. Qed.

Lemma sameBuffer_set_pinLog (l : list PinEvent) (st : Firmware) :
  sameBuffer st (set_pinLog l st).
Proof. split; reflexivity. Qed.

(** Every command but reset returns to [loop], with the buffer as it
    was. *)
Lemma runCommand_returns (env : Env) (command p : Z) (st : Firmware) :
  command <> CMD_RESET ->
  exists st', runCommand env command p st = Returned st' /\ sameBuffer st st'.
Proof.
  intros Hreset. unfold runCommand.
  destruct (command =? CMD_NOP)%Z; [eexists; split; [reflexivity | apply sameBuffer_refl] |].
  destruct (command =? CMD_INFO)%Z.
  { eexists; split; [reflexivity |].
    apply (sameBuffer_step (set_hasOutput true)); [apply sameBuffer_set_hasOutput |].
    apply sameBuffer_sendInfo. }
  destruct (command =? CMD_DIGITALREAD)%Z.
  { eexists; split; [reflexivity |].
    apply (sameBuffer_step (set_hasOutput true)); [apply sameBuffer_set_hasOutput |].
    apply sameBuffer_set_outputValue. }
  destruct (command =? CMD_DIGITALWRITE)%Z.
  { eexists; split; [reflexivity |].
    apply (sameBuffer_step (digitalWrite p (byteAt 2 st)));
      [intros s; apply sameBuffer_set_pinLog |].
    apply sameBuffer_resetScan. }
  destruct (command =? CMD_ANALOGREAD)%Z.
  { eexists; split; [reflexivity |].
    apply (sameBuffer_step (set_isTwoByteOutput true));
      [apply sameBuffer_set_isTwoByteOutput |].
    apply (sameBuffer_step (set_hasOutput true)); [apply sameBuffer_set_hasOutput |].
    apply sameBuffer_set_outputValue. }
  destruct (command =? CMD_ANALOGWRITE)%Z.
  { pose proof (sameBuffer_setPWM p (byteAt 2 st) (millisAtCommand env) st) as Hs.
    destruct (setPWM p (byteAt 2 st) (millisAtCommand env) st) as [ok st1].
    eexists; split; [reflexivity |].
    apply (sameBuffer_step (set_hasError (negb ok))); [apply sameBuffer_set_hasError |].
    exact Hs. }
  destruct (Z.eqb_spec command CMD_RESET); [contradiction |].
  destruct (command =? CMD_PINMODE)%Z.
  - eexists; split; [reflexivity | apply sameBuffer_set_pinLog].
  - eexists; split; [reflexivity | apply sameBuffer_set_hasError].
Qed.

Lemma executeBufferedCommand_returns (A0 : Z) (env : Env) (st : Firmware) :
  byteAt 0 st <> CMD_RESET ->
  exists st', executeBufferedCommand A0 env st = Returned st' /\ sameBuffer st st'.
Proof.
  intros Hreset. unfold executeBufferedCommand.
  change (byteAt 0 (set_result _ st)) with (byteAt 0 st).
  change (byteAt 1 (set_result _ st)) with (byteAt 1 st).
  destruct (negb (byteAt 0 st =? CMD_NOP)%Z && _ && _).
  - destruct (readPin A0 (byteAt 1 st) false) as [p error].
    destruct error; [eexists; split; [reflexivity | split; reflexivity] |].
    destruct (runCommand_returns env (byteAt 0 st) p
                (set_hasError false (set_result (mkResult false false false 0) st)))
      as (st' & Hrun & Hsame); [exact Hreset |].
    exists st'. split; [exact Hrun | exact Hsame].
  - destruct (runCommand_returns env (byteAt 0 st) 0
                (set_result (mkResult false false false 0) st))
      as (st' & Hrun & Hsame); [exact Hreset |].
    exists st'. split; [exact Hrun | exact Hsame].
Qed.

(** The read loop keeps the buffer an array of [BUFFER_SIZE] bytes. *)
Lemma drain_bufferOK (incoming : list Z) :
  forall st : Firmware, bufferOK st -> bufferOK (drain incoming st).1.
Proof.
  induction incoming as [| b rest IH]; intros st Hok; simpl; [exact Hok |].
  destruct (Z.ltb_spec (bufferIndex st) BUFFER_SIZE) as [Hroom | Hfull]; [| exact Hok].
  apply IH. destruct Hok as [Hlen Hidx]. unfold bufferOK; simpl.
  rewrite length_insert. split; [exact Hlen | lia].
Qed.


Lemma shiftLoop_length (commandLength : Z) (n : nat) :
  forall (i : Z) (buf : list Z), length (shiftLoop commandLength n i buf) = length buf.
Proof.
  induction n as [| n IH]; intros i buf; simpl; [reflexivity |].
  rewrite IH. apply length_insert.
Qed.




(** ** A digital write against a duplicated channel *)

(** C2 does not hold of the code.  After analog-writes on pins 2 and 4, an
    analog-write of duty 0 on pin 2 and a second analog-write on pin 4, the
    table holds pin 4 twice, both enabled: the search of [setPWM] took
    the disabled slot 0 before it reached the slot of pin 4.  The
    digital-write on pin 4 then disables slot 0 only, since [resetPWM]
    leaves its loop at the first match; slot 1 stays enabled on pin 4, and
    the next [updateSoftPWM] drives the pin high over the level the host
    wrote. *)
Theorem digitalWrite_misses_duplicate_channel :
  exists before st,
    runLoop 14 (take 4 duplicateChannelPasses) [] initFirmware = Some before /\
    softPWM before !! 0%nat = Some (mkSoftPWM 4 50 3 false true) /\
    softPWM before !! 1%nat = Some (mkSoftPWM 4 100 1 false true) /\
    runLoop 14 duplicateChannelPasses [] initFirmware = Some st /\
    serialOut st = [SUCCESS_CODE; SUCCESS_CODE; SUCCESS_CODE; SUCCESS_CODE; SUCCESS_CODE] /\
    softPWMCount st = 2%nat /\
    softPWM st !! 0%nat = Some (mkSoftPWM 4 50 3 false false) /\
    softPWM st !! 1%nat = Some (mkSoftPWM 4 100 1 false true) /\
    last (pinLog st) = Some (DigitalWrite 4 LOW) /\
    pinLog (updateSoftPWM 30 st) = pinLog st ++ [DigitalWrite 4 HIGH].
Proof.
  eexists. eexists.
  split; [vm_compute; reflexivity |].
  split; [reflexivity |]. split; [reflexivity |].
  split; [vm_compute; reflexivity |].
  repeat split.
Qed.

(** * Further properties of the channel table *)

(** ** The slot search of [setPWM] *)

(** Where the search stops: every slot it passed is enabled on another
    pin, and the slot it stopped at, if any, holds the pin or is
    disabled. *)
Lemma scanSlot_stop (p : Z) (n : nat) :
  forall (i : nat) (st : Firmware),
    (i <= (scanSlot p n i st).1 <= i + n)%nat /\
    (forall j, (i <= j < (scanSlot p n i st).1)%nat ->
               pin (slot j st) <> p /\ enabled (slot j st) = true) /\
    (((scanSlot p n i st).1 < i + n)%nat ->
     pin (slot (scanSlot p n i st).1 st) = p \/
     enabled (slot (scanSlot p n i st).1 st) = false).
Proof.
  induction n as [| n IH]; intros i st; simpl.
  - split; [lia |]. split; intros; lia.
  - destruct (Z.eqb_spec (pin (slot i st)) p) as [Heq | Hne]; simpl.
    + split; [lia |]. split; [intros; lia | intros _; left; exact Heq].
    + destruct (enabled (slot i st)) eqn:Hen; simpl.
      * destruct (IH (S i) (touch i st)) as (H1 & H2 & H3).
        split; [lia |]. split.
        -- intros j Hj. destruct (Nat.eq_dec j i) as [-> | Hji];
             [split; assumption | apply (H2 j); lia].
        -- intros Hlt. apply H3. lia.
      * split; [lia |]. split; [intros; lia | intros _; right; exact Hen].
Qed.

(** What [setPWM] does on a pin without hardware PWM, in terms of the slot
    [k] at which the search stops. *)
Lemma setPWM_soft (p duty now : Z) (st : Firmware) :
  isHardwarePWMPin p = false ->
  let k := (scanSlot p (softPWMCount st) 0 (digitalWrite p LOW st)).1 in
  exists log,
    setPWM p duty now st
    = if (MAX_SOFT_PWM <=? k)%nat then
        (false, set_slotLog log (digitalWrite p LOW st))
      else if (duty =? 0)%Z then
        (true,
         if (k <? softPWMCount st)%nat
         then set_slotLog log
                (set_softPWM (<[k := set_enabled false (slot k st)]> (softPWM st))
                   (digitalWrite p LOW st))
         else set_slotLog log (digitalWrite p LOW st))
      else
        (true,
         set_slotLog log
           (set_softPWM (<[k := mkSoftPWM p duty now false true]> (softPWM st))
              (set_softPWMCount
                 (if (k =? softPWMCount st)%nat
                  then S (softPWMCount st) mod 256 else softPWMCount st)
                 (digitalWrite p LOW st)))).
Proof.
  intros Hhw k. unfold setPWM. rewrite Hhw.
  change (softPWMCount (digitalWrite p LOW st)) with (softPWMCount st).
  pose proof (scanSlot_frame p (softPWMCount st) 0 (digitalWrite p LOW st)) as Hframe.
  subst k.
  destruct (scanSlot p (softPWMCount st) 0 (digitalWrite p LOW st)) as [k st2].
  simpl in Hframe. cbv beta iota.
  assert (exists l, st2 = set_slotLog l (digitalWrite p LOW st)) as [l ->]
    by (eexists; exact Hframe).
  clear Hframe. cbn [fst snd].
  change (softPWMCount (set_slotLog l (digitalWrite p LOW st)))
    with (softPWMCount st).
  destruct (MAX_SOFT_PWM <=? k)%nat; [eexists; reflexivity |].
  destruct (duty =? 0)%Z.
  - simpl. destruct (k <? softPWMCount st)%nat; eexists; reflexivity.
  - simpl. destruct (k =? softPWMCount st)%nat; eexists; reflexivity.
Qed.

(** ** What a call of [setPWM] does to the table *)

(** X1: on a pin without hardware PWM and with a nonzero duty, [setPWM]
    drives the pin low and then either fails, which it does exactly when
    all [MAX_SOFT_PWM] slots are enabled channels on other pins, the table
    and the count staying as they were, or writes the new channel (off,
    enabled, toggled at [now]) into one slot: a slot in use that held the
    pin or was disabled, the count staying, or the slot after the last one
    in use, the count growing by one. *)
Theorem setPWM_outcome (p duty now : Z) (st : Firmware) :
  isHardwarePWMPin p = false -> duty <> 0%Z ->
  (softPWMCount st <= MAX_SOFT_PWM)%nat -> length (softPWM st) = MAX_SOFT_PWM ->
  let r := setPWM p duty now st in
  pinLog r.2 = pinLog st ++ [DigitalWrite p LOW] /\
  serialOut r.2 = serialOut st /\
  (r.1 = false ->
   tableFull p st /\ softPWM r.2 = softPWM st /\
   softPWMCount r.2 = softPWMCount st) /\
  (r.1 = true ->
   exists k c,
     softPWM st !! k = Some c /\
     softPWM r.2 = <[k := mkSoftPWM p duty now false true]> (softPWM st) /\
     (forall j c', (j < k)%nat -> softPWM st !! j = Some c' ->
                   pin c' <> p /\ enabled c' = true) /\
     (((k < softPWMCount st)%nat /\ softPWMCount r.2 = softPWMCount st /\
       (pin c = p \/ enabled c = false)) \/
      (k = softPWMCount st /\ softPWMCount r.2 = S (softPWMCount st)))).
Proof.
  intros Hhw Hduty Hcount Hlen r.
  destruct (setPWM_soft p duty now st Hhw) as [log Hrun].
  destruct (scanSlot_stop p (softPWMCount st) 0 (digitalWrite p LOW st))
    as (Hk & Hbefore & Hat).
  set (k := (scanSlot p (softPWMCount st) 0 (digitalWrite p LOW st)).1) in *.
  cbv zeta in Hrun. fold k in Hrun.
  change (slot k (digitalWrite p LOW st)) with (slot k st) in Hat.
  assert (Hpassed : forall j c', (j < k)%nat -> softPWM st !! j = Some c' ->
                                 pin c' <> p /\ enabled c' = true).
  { intros j c' Hj Hc'. specialize (Hbefore j ltac:(lia)).
    change (slot j (digitalWrite p LOW st)) with (slot j st) in Hbefore.
    rewrite (slot_lookup j c' st Hc') in Hbefore. exact Hbefore. }
  subst r. rewrite Hrun.
  destruct (Nat.leb_spec MAX_SOFT_PWM k) as [Hfull | Hroom].
  - simpl. split; [reflexivity |]. split; [reflexivity |].
    split; [| discriminate]. intros _.
    split; [| split; reflexivity].
    split; [lia |]. split; [exact Hlen |].
    intros i c Hi Hc. apply (Hpassed i c); [lia | exact Hc].
  - destruct (Z.eqb_spec duty 0) as [| _]; [contradiction |]. simpl.
    split; [reflexivity |]. split; [reflexivity |].
    split; [discriminate |]. intros _.
    destruct (lookup_lt_is_Some_2 (softPWM st) k) as [c Hc]; [lia |].
    exists k, c. split; [exact Hc |]. split; [reflexivity |].
    split; [exact Hpassed |].
    destruct (Nat.eqb_spec k (softPWMCount st)) as [Heq | Hne].
    + right. split; [exact Heq |].
      pose proof MAX_SOFT_PWM_byte. apply Nat.mod_small. lia.
    + left. split; [lia |]. split; [reflexivity |].
      rewrite <- (slot_lookup k c st Hc). apply Hat. lia.
Qed.

Lemma setPWM_outcome_witness :
  softPWM (setPWM 4 100 9 (setPWM 2 100 5 initFirmware).2).2
  = <[1%nat := mkSoftPWM 4 100 9 false true]> (softPWM (setPWM 2 100 5 initFirmware).2) /\
  softPWMCount (setPWM 4 100 9 (setPWM 2 100 5 initFirmware).2).2 = 2%nat.
Proof.
  destruct (setPWM_outcome 4 100 9 (setPWM 2 100 5 initFirmware).2)
    as (_ & _ & _ & Hok).
  - reflexivity.
  - discriminate.
  - vm_compute. lia.
  - reflexivity.
  - destruct Hok as (k & c & _ & _ & _ & _); [reflexivity |].
    split; reflexivity.
Defined.

(** X2: with duty 0, on a pin without hardware PWM, [setPWM] never takes a
    slot: the count stays.  The search decides what happens to the table.
    When a slot in use holds the pin or is disabled, the first such slot
    gets its enabled flag cleared and nothing else changes: a channel
    running on the pin there is stopped.  When every slot in use is an
    enabled channel on another pin, the table stays as it was.  The call
    succeeds when a slot is free beyond the ones in use, and fails on a
    table full of enabled channels on other pins although no channel was
    asked for. *)
Theorem setPWM_zero_duty (p now : Z) (st : Firmware) :
  isHardwarePWMPin p = false ->
  (softPWMCount st <= MAX_SOFT_PWM)%nat -> length (softPWM st) = MAX_SOFT_PWM ->
  let r := setPWM p 0 now st in
  softPWMCount r.2 = softPWMCount st /\
  pinLog r.2 = pinLog st ++ [DigitalWrite p LOW] /\
  (softPWM r.2 = softPWM st \/
   exists k c,
     (k < softPWMCount st)%nat /\ softPWM st !! k = Some c /\
     pin c = p /\ enabled c = true /\
     (forall j c', (j < k)%nat -> softPWM st !! j = Some c' ->
                   pin c' <> p /\ enabled c' = true) /\
     softPWM r.2 = <[k := set_enabled false c]> (softPWM st)) /\
  ((softPWMCount st < MAX_SOFT_PWM)%nat -> r.1 = true) /\
  (tableFull p st -> r.1 = false) /\
  (forall k c,
      (k < softPWMCount st)%nat -> softPWM st !! k = Some c ->
      pin c = p \/ enabled c = false ->
      (forall j c', (j < k)%nat -> softPWM st !! j = Some c' ->
                    pin c' <> p /\ enabled c' = true) ->
      r.1 = true /\
      softPWM r.2 = <[k := set_enabled false c]> (softPWM st) /\
      softPWM r.2 !! k = Some (set_enabled false c)) /\
  ((forall j c', (j < softPWMCount st)%nat -> softPWM st !! j = Some c' ->
                 pin c' <> p /\ enabled c' = true) ->
   softPWM r.2 = softPWM st).
Proof.
  intros Hhw Hcount Hlen r.
  destruct (setPWM_soft p 0 now st Hhw) as [log Hrun].
  destruct (scanSlot_stop p (softPWMCount st) 0 (digitalWrite p LOW st))
    as (Hk & Hbefore & Hat).
  set (k := (scanSlot p (softPWMCount st) 0 (digitalWrite p LOW st)).1) in *.
  cbv zeta in Hrun. fold k in Hrun.
  change (slot k (digitalWrite p LOW st)) with (slot k st) in Hat.
  assert (Hpassed : forall j c', (j < k)%nat -> softPWM st !! j = Some c' ->
                                 pin c' <> p /\ enabled c' = true).
  { intros j c' Hj Hc'. specialize (Hbefore j ltac:(lia)).
    change (slot j (digitalWrite p LOW st)) with (slot j st) in Hbefore.
    rewrite (slot_lookup j c' st Hc') in Hbefore. exact Hbefore. }
  assert (Hnone : (forall j c', (j < softPWMCount st)%nat ->
                      softPWM st !! j = Some c' ->
                      pin c' <> p /\ enabled c' = true) ->
                  k = softPWMCount st).
  { intros Hall.
    destruct (Nat.eq_dec k (softPWMCount st)) as [| Hne]; [assumption | exfalso].
    destruct (lookup_lt_is_Some_2 (softPWM st) k) as [c Hck]; [lia |].
    destruct (Hall k c ltac:(lia) Hck) as [Hpin Hen].
    specialize (Hat ltac:(lia)). rewrite (slot_lookup k c st Hck) in Hat.
    destruct Hat as [Hp | Hd]; [contradiction | congruence]. }
  assert (Hfullcase : tableFull p st -> k = MAX_SOFT_PWM).
  { intros (Hc & _ & Hslots). rewrite <- Hc. apply Hnone.
    intros j c' Hj. apply Hslots. lia. }
  assert (Hfirst : forall k' c,
             (k' < softPWMCount st)%nat -> softPWM st !! k' = Some c ->
             pin c = p \/ enabled c = false ->
             (forall j c', (j < k')%nat -> softPWM st !! j = Some c' ->
                           pin c' <> p /\ enabled c' = true) ->
             k = k').
  { intros k' c Hk' Hc Hmatch Hbefore'.
    destruct (lt_eq_lt_dec k k') as [[Hlt | Heq] | Hgt]; [exfalso | exact Heq | exfalso].
    - destruct (lookup_lt_is_Some_2 (softPWM st) k) as [ck Hck]; [lia |].
      destruct (Hbefore' k ck Hlt Hck) as [Hpin Hen].
      specialize (Hat ltac:(lia)). rewrite (slot_lookup k ck st Hck) in Hat.
      destruct Hat as [Hp | Hd]; [contradiction | congruence].
    - destruct (Hpassed k' c Hgt Hc) as [Hpin Hen].
      destruct Hmatch as [Hp | Hd]; [contradiction | congruence]. }
  subst r. rewrite Hrun. simpl (_ =? _)%Z. cbv iota.
  destruct (Nat.leb_spec MAX_SOFT_PWM k) as [Hfull | Hroom]; simpl.
  - split; [reflexivity |]. split; [reflexivity |]. split; [left; reflexivity |].
    split; [intros; lia |]. split; [reflexivity |]. split; [| reflexivity].
    intros k' c Hk' Hc Hmatch Hbefore'.
    pose proof (Hfirst k' c Hk' Hc Hmatch Hbefore'). lia.
  - destruct (Nat.ltb_spec k (softPWMCount st)) as [Hused | Hfree]; simpl.
    + split; [reflexivity |]. split; [reflexivity |]. split.
      * destruct (lookup_lt_is_Some_2 (softPWM st) k) as [c Hc]; [lia |].
        specialize (Hat ltac:(lia)).
        rewrite (slot_lookup k c st Hc) in Hat |- *.
        destruct (enabled c) eqn:Hen.
        -- right. exists k, c. destruct Hat as [Hp | Hd]; [| discriminate].
           split; [exact Hused |]. split; [exact Hc |]. split; [exact Hp |].
           split; [exact Hen |]. split; [exact Hpassed | reflexivity].
        -- left. apply list_insert_id. rewrite Hc. f_equal.
           destruct c; simpl in *; subst; reflexivity.
      * split; [reflexivity |].
        split; [intros Hf; apply Hfullcase in Hf; lia |]. split.
        -- intros k' c Hk' Hc Hmatch Hbefore'.
           pose proof (Hfirst k' c Hk' Hc Hmatch Hbefore') as <-.
           rewrite (slot_lookup k c st Hc).
           split; [reflexivity |]. split; [reflexivity |].
           apply list_lookup_insert_eq. lia.
        -- intros Hall. apply Hnone in Hall. lia.
    + split; [reflexivity |]. split; [reflexivity |]. split; [left; reflexivity |].
      split; [reflexivity |].
      split; [intros Hf; apply Hfullcase in Hf; lia |]. split; [| reflexivity].
      intros k' c Hk' Hc Hmatch Hbefore'.
      pose proof (Hfirst k' c Hk' Hc Hmatch Hbefore'). lia.
Qed.

Lemma setPWM_zero_duty_witness :
  (setPWM 14 0 9 sixChannels).1 = false /\
  (setPWM 4 0 9 (setPWM 2 100 5 initFirmware).2).1 = true /\
  softPWMCount (setPWM 4 0 9 (setPWM 2 100 5 initFirmware).2).2 = 1%nat /\
  (setPWM 2 0 9 (setPWM 2 100 5 initFirmware).2).1 = true /\
  softPWM (setPWM 2 0 9 (setPWM 2 100 5 initFirmware).2).2 !! 0%nat
  = Some (mkSoftPWM 2 100 5 false false).
Proof.
  destruct (setPWM_zero_duty 14 9 sixChannels) as (_ & _ & _ & _ & Hfull & _);
    [reflexivity | vm_compute; lia | reflexivity |].
  destruct (setPWM_zero_duty 4 9 (setPWM 2 100 5 initFirmware).2)
    as (Hcount & _ & _ & Hroom & _);
    [reflexivity | vm_compute; lia | reflexivity |].
  destruct (setPWM_zero_duty 2 9 (setPWM 2 100 5 initFirmware).2)
    as (_ & _ & _ & _ & _ & Hstop & _);
    [reflexivity | vm_compute; lia | reflexivity |].
  destruct (Hstop 0%nat (mkSoftPWM 2 100 5 false true)) as (Hok & _ & Hslot).
  - vm_compute. lia.
  - reflexivity.
  - left. reflexivity.
  - intros j c' Hj. lia.
  - split; [apply Hfull, tableFull_sixChannels |].
    split; [apply Hroom; vm_compute; lia |].
    split; [exact Hcount |]. split; [exact Hok | exact Hslot].
Defined.

(** X3: calls of [setPWM] for pins with hardware PWM all succeed, whatever
    the duty, and keep clear of the channel table: the state changes by the
    [analogWrite] calls only, one per call and in order. *)
Theorem setPWM_hardware_pins (calls : list (Z * Z * Z)) (st : Firmware) :
  Forall (fun call : Z * Z * Z => isHardwarePWMPin call.1.1 = true) calls ->
  runSetPWM calls st
  = (replicate (length calls) true,
     set_pinLog
       (pinLog st ++ ((fun call : Z * Z * Z => AnalogWrite call.1.1 call.1.2) <$> calls))
       st).
Proof.
  revert st. induction calls as [| [[p duty] now] rest IH]; intros st Hhw.
  - simpl. rewrite app_nil_r. destruct st; reflexivity.
  - apply Forall_cons in Hhw as [Hp Hrest]. simpl in Hp.
    simpl. unfold setPWM. rewrite Hp, (IH _ Hrest). simpl.
    rewrite <- app_assoc. reflexivity.
Qed.

Lemma setPWM_hardware_pins_witness :
  runSetPWM [(3, 10, 0); (11, 0, 1); (9, 255, 2)]%Z sixChannels
  = ([true; true; true],
     set_pinLog (pinLog sixChannels ++ [AnalogWrite 3 10; AnalogWrite 11 0; AnalogWrite 9 255])
                sixChannels).
Proof.
  apply (setPWM_hardware_pins [(3, 10, 0); (11, 0, 1); (9, 255, 2)]%Z sixChannels).
  repeat constructor.
Defined.

(** ** What [updateSoftPWM] and [resetPWM] leave alone *)

(** X4: [updateSoftPWM] changes nothing but [state] and [lastToggle] of
    enabled channels in use: the count, every slot's pin, duty and enabled
    flag, the disabled slots and the slots beyond the count stay as they
    were, nothing is written to the serial port, and every pin it drives is
    a [digitalWrite] on the pin of an enabled channel in use. *)
Theorem updateSoftPWM_frame (now : Z) (st : Firmware) :
  softPWMCount (updateSoftPWM now st) = softPWMCount st /\
  length (softPWM (updateSoftPWM now st)) = length (softPWM st) /\
  serialOut (updateSoftPWM now st) = serialOut st /\
  (forall j,
      pin (slot j (updateSoftPWM now st)) = pin (slot j st) /\
      dutyCycle (slot j (updateSoftPWM now st)) = dutyCycle (slot j st) /\
      enabled (slot j (updateSoftPWM now st)) = enabled (slot j st) /\
      (enabled (slot j st) = false \/ (softPWMCount st <= j)%nat ->
       slot j (updateSoftPWM now st) = slot j st)) /\
  exists evs,
    pinLog (updateSoftPWM now st) = pinLog st ++ evs /\
    Forall (fun ev => exists j v,
                (j < softPWMCount st)%nat /\ enabled (slot j st) = true /\
                ev = DigitalWrite (pin (slot j st)) v) evs.
Proof.
  unfold updateSoftPWM.
  destruct (updateLoop_frame now (softPWMCount st) 0 st)
    as (Hc & Hl & Hs & Hslots & evs & Hlog & Hevs).
  split; [exact Hc |]. split; [exact Hl |]. split; [exact Hs |]. split.
  - intros j. destruct (Hslots j) as (Hp & Hd & He & Hsame).
    split; [exact Hp |]. split; [exact Hd |]. split; [exact He |].
    intros [Hdis | Hout]; apply Hsame; [left; exact Hdis | right; right; lia].
  - exists evs. split; [exact Hlog |].
    eapply Forall_impl; [exact Hevs |].
    intros ev (j & v & Hj & Hen & ->). exists j, v.
    split; [lia |]. split; [exact Hen | reflexivity].
Qed.

(** ** [resetPWM] *)

Lemma resetScan_table (p : Z) (n : nat) :
  forall (i : nat) (st : Firmware),
    softPWMCount (resetScan p n i st) = softPWMCount st /\
    pinLog (resetScan p n i st) = pinLog st /\
    serialOut (resetScan p n i st) = serialOut st /\
    (((forall j, (i <= j < i + n)%nat -> pin (slot j st) <> p) /\
      softPWM (resetScan p n i st) = softPWM st) \/
     (exists k,
        (i <= k < i + n)%nat /\ pin (slot k st) = p /\
        (forall j, (i <= j < k)%nat -> pin (slot j st) <> p) /\
        softPWM (resetScan p n i st)
        = <[k := set_enabled false (slot k st)]> (softPWM st))).
Proof.
  induction n as [| n IH]; intros i st; simpl.
  - repeat split. left. split; [intros; lia | reflexivity].
  - destruct (Z.eqb_spec (pin (slot i st)) p) as [Heq | Hne].
    + repeat split. right. exists i. split; [lia |]. split; [exact Heq |].
      split; [intros; lia | reflexivity].
    + destruct (IH (S i) (touch i st)) as (Hc & Hl & Hs & Hcases).
      split; [exact Hc |]. split; [exact Hl |]. split; [exact Hs |].
      destruct Hcases as [[Hnone Hsame] | (k & Hk & Hpin & Hfirst & Htable)].
      * left. split; [| exact Hsame].
        intros j Hj. destruct (Nat.eq_dec j i) as [-> | Hji];
          [exact Hne | apply (Hnone j); lia].
      * right. exists k. split; [lia |]. split; [exact Hpin |].
        split; [| exact Htable].
        intros j Hj. destruct (Nat.eq_dec j i) as [-> | Hji];
          [exact Hne | apply (Hfirst j); lia].
Qed.

(** X5: [resetPWM(p)] touches neither the count, nor the pins, nor the
    serial port; when no slot in use holds [p] the table stays as it was,
    and otherwise the only change is that the first slot in use holding [p]
    has its enabled flag cleared. *)
Theorem resetPWM_first_match (p : Z) (st : Firmware) :
  softPWMCount (resetPWM p st) = softPWMCount st /\
  pinLog (resetPWM p st) = pinLog st /\
  serialOut (resetPWM p st) = serialOut st /\
  (((forall j, (j < softPWMCount st)%nat -> pin (slot j st) <> p) /\
    softPWM (resetPWM p st) = softPWM st) \/
   (exists k,
      (k < softPWMCount st)%nat /\ pin (slot k st) = p /\
      (forall j, (j < k)%nat -> pin (slot j st) <> p) /\
      softPWM (resetPWM p st)
      = <[k := set_enabled false (slot k st)]> (softPWM st))).
Proof.
  unfold resetPWM.
  destruct (resetScan_table p (softPWMCount st) 0 st) as (Hc & Hl & Hs & Hcases).
  split; [exact Hc |]. split; [exact Hl |]. split; [exact Hs |].
  destruct Hcases as [[Hnone Hsame] | (k & Hk & Hpin & Hfirst & Htable)].
  - left. split; [| exact Hsame]. intros j Hj. apply Hnone. lia.
  - right. exists k. split; [lia |]. split; [exact Hpin |].
    split; [| exact Htable]. intros j Hj. apply Hfirst. lia.
Qed.

Lemma usedSlots_pin (j : nat) (st : Firmware) :
  (j < softPWMCount st)%nat -> (j < length (softPWM st))%nat ->
  (pin <$> usedSlots st) !! j = Some (pin (slot j st)).
Proof.
  intros Hj Hlen. unfold usedSlots, slot.
  rewrite list_lookup_fmap, lookup_take_lt by exact Hj.
  destruct (lookup_lt_is_Some_2 (softPWM st) j Hlen) as [c ->]. reflexivity.
Qed.

(** After [resetPWM(p)] on a table whose slots in use hold distinct pins,
    no slot in use is an enabled channel on [p]. *)
Lemma resetPWM_clears (p : Z) (st : Firmware) :
  (softPWMCount st <= length (softPWM st))%nat ->
  NoDup (pin <$> usedSlots st) ->
  forall j, (j < softPWMCount st)%nat ->
            pin (slot j (resetPWM p st)) = p ->
            enabled (slot j (resetPWM p st)) = false.
Proof.
  intros Hlen Hnodup j Hj Hpin. unfold resetPWM in *.
  destruct (resetScan_table p (softPWMCount st) 0 st) as (_ & _ & _ & Hcases).
  destruct Hcases as [[Hnone Hsame] | (k & Hk & Hpk & _ & Htable)].
  - exfalso. apply (Hnone j); [lia |].
    unfold slot in *. rewrite Hsame in Hpin. exact Hpin.
  - unfold slot in Hpin |- *. rewrite Htable in Hpin |- *.
    destruct (Nat.eq_dec j k) as [-> | Hne].
    + rewrite list_lookup_insert_eq by lia. reflexivity.
    + exfalso. apply Hne. rewrite list_lookup_insert_ne in Hpin by lia.
      apply (NoDup_lookup (pin <$> usedSlots st) j k p Hnodup).
      * rewrite usedSlots_pin by lia. f_equal. exact Hpin.
      * rewrite usedSlots_pin by lia. f_equal. exact Hpk.
Qed.

(** X6: on a table whose slots in use hold distinct pins, [resetPWM(p)]
    leaves no enabled channel on [p] among them, and whatever later call of
    [updateSoftPWM] follows drives no pin [p]. *)
Theorem resetPWM_distinct_pins (p now : Z) (st : Firmware) :
  (softPWMCount st <= length (softPWM st))%nat ->
  NoDup (pin <$> usedSlots st) ->
  (forall j, (j < softPWMCount st)%nat ->
             pin (slot j (resetPWM p st)) = p ->
             enabled (slot j (resetPWM p st)) = false) /\
  exists evs,
    pinLog (updateSoftPWM now (resetPWM p st)) = pinLog st ++ evs /\
    Forall (fun ev => eventPin ev <> p) evs.
Proof.
  intros Hlen Hnodup.
  pose proof (resetPWM_clears p st Hlen Hnodup) as Hclear.
  split; [exact Hclear |].
  destruct (resetScan_table p (softPWMCount st) 0 st) as (Hc & Hl & _).
  fold (resetPWM p st) in Hc, Hl.
  unfold updateSoftPWM.
  destruct (updateLoop_frame now (softPWMCount (resetPWM p st)) 0 (resetPWM p st))
    as (_ & _ & _ & _ & evs & Hlog & Hevs).
  exists evs. rewrite Hlog, Hl. split; [reflexivity |].
  eapply Forall_impl; [exact Hevs |].
  intros ev (j & v & Hj & Hen & ->) Hp. simpl in Hp.
  rewrite (Hclear j) in Hen; [discriminate | lia | exact Hp].
Qed.

Lemma resetPWM_distinct_pins_witness :
  exists evs,
    pinLog (updateSoftPWM 40 (resetPWM 4 sixChannels)) = pinLog sixChannels ++ evs /\
    Forall (fun ev => eventPin ev <> 4%Z) evs.
Proof.
  destruct (resetPWM_distinct_pins 4 40 sixChannels) as [_ Hevs].
  - vm_compute. lia.
  - apply (bool_decide_unpack _). vm_compute. exact I.
  - exact Hevs.
Defined.

(** ** Tables without duplicates *)

Lemma usedSlots_lookup (j : nat) (c : SoftPWM) (st : Firmware) :
  usedSlots st !! j = Some c ->
  (j < softPWMCount st)%nat /\ softPWM st !! j = Some c /\ slot j st = c.
Proof.
  unfold usedSlots. intros H. apply lookup_take_Some in H as [Hc Hj].
  split; [exact Hj |]. split; [exact Hc | apply slot_lookup, Hc].
Qed.

Lemma distinctEnabled_setPWM (p duty now : Z) (st : Firmware) :
  duty <> 0%Z -> distinctEnabled st -> distinctEnabled (setPWM p duty now st).2.
Proof.
  intros Hduty (Hcount & Hlen & Hnodup & Hen).
  destruct (isHardwarePWMPin p) eqn:Hhw.
  { unfold setPWM. rewrite Hhw. simpl. repeat split; assumption. }
  destruct (setPWM_soft p duty now st Hhw) as [log Hrun].
  destruct (scanSlot_stop p (softPWMCount st) 0 (digitalWrite p LOW st))
    as (Hk & Hbefore & Hat).
  set (k := (scanSlot p (softPWMCount st) 0 (digitalWrite p LOW st)).1) in *.
  cbv zeta in Hrun. fold k in Hrun.
  change (slot k (digitalWrite p LOW st)) with (slot k st) in Hat.
  assert (Hused : forall j, (j < softPWMCount st)%nat ->
                            usedSlots st !! j = Some (slot j st)).
  { intros j Hj. unfold usedSlots, slot. rewrite lookup_take_lt by exact Hj.
    destruct (lookup_lt_is_Some_2 (softPWM st) j) as [c ->]; [lia | reflexivity]. }
  rewrite Hrun.
  destruct (Nat.leb_spec MAX_SOFT_PWM k) as [Hfull | Hroom];
    [simpl; repeat split; assumption |].
  destruct (Z.eqb_spec duty 0) as [| _]; [contradiction |].
  destruct (Nat.eqb_spec k (softPWMCount st)) as [Heq | Hne].
  - (* the slot after the last one in use *)
    pose proof MAX_SOFT_PWM_byte.
    unfold distinctEnabled, usedSlots; simpl.
    rewrite Nat.mod_small by lia. rewrite length_insert.
    split; [lia |]. split; [exact Hlen |].
    rewrite Heq.
    rewrite (take_S_r _ _ (mkSoftPWM p duty now false true))
      by (apply list_lookup_insert_eq; lia).
    rewrite take_insert_ge by lia. fold (usedSlots st).
    split.
    + rewrite fmap_app. apply NoDup_app. split; [exact Hnodup |].
      split; [| apply NoDup_singleton].
      intros x Hx Hxp. apply list_elem_of_singleton in Hxp. simpl in Hxp. subst x.
      apply list_elem_of_fmap in Hx as (c & Hpc & Hc).
      apply list_elem_of_lookup in Hc as [j Hj].
      apply usedSlots_lookup in Hj as (Hjc & _ & Hslot).
      destruct (Hbefore j ltac:(lia)) as [Hpin _].
      change (slot j (digitalWrite p LOW st)) with (slot j st) in Hpin.
      rewrite Hslot in Hpin. congruence.
    + apply Forall_app. split; [exact Hen |]. constructor; [reflexivity | constructor].
  - (* a slot in use, which then holds the pin *)
    assert (Hkc : (k < softPWMCount st)%nat) by lia.
    assert (Hpk : pin (slot k st) = p).
    { destruct (Hat ltac:(lia)) as [Hp | Hdis]; [exact Hp |].
      pose proof (proj1 (Forall_lookup _ _) Hen k _ (Hused k Hkc)) as Htrue.
      simpl in Htrue. congruence. }
    unfold distinctEnabled, usedSlots; simpl. rewrite length_insert.
    split; [exact Hcount |]. split; [exact Hlen |].
    rewrite take_insert_lt by exact Hkc. fold (usedSlots st).
    split.
    + rewrite list_fmap_insert. simpl. rewrite list_insert_id; [exact Hnodup |].
      rewrite list_lookup_fmap, (Hused k Hkc). simpl. f_equal. exact Hpk.
    + apply Forall_insert; [exact Hen | reflexivity].
Qed.

Lemma distinctEnabled_updateSoftPWM (now : Z) (st : Firmware) :
  distinctEnabled st -> distinctEnabled (updateSoftPWM now st).
Proof.
  intros (Hcount & Hlen & Hnodup & Hen). unfold updateSoftPWM.
  destruct (updateLoop_frame now (softPWMCount st) 0 st)
    as (Hc & Hl & _ & Hslots & _).
  set (st' := updateLoop now (softPWMCount st) 0 st) in *.
  assert (Hsame : forall j c', usedSlots st' !! j = Some c' ->
                    exists c, usedSlots st !! j = Some c /\
                              pin c' = pin c /\ enabled c' = enabled c).
  { intros j c' Hj. apply usedSlots_lookup in Hj as (Hjc & Hlook & Hslot).
    assert (Hjl : (j < length (softPWM st))%nat)
      by (rewrite <- Hl; apply lookup_lt_is_Some_1; eauto).
    destruct (lookup_lt_is_Some_2 (softPWM st) j Hjl) as [c Hcj].
    exists c. destruct (Hslots j) as (Hp & _ & He & _).
    rewrite Hslot, (slot_lookup j c st Hcj) in Hp, He.
    split; [| split; assumption].
    unfold usedSlots. rewrite lookup_take_lt by lia. exact Hcj. }
  unfold distinctEnabled. rewrite Hc, Hl.
  split; [exact Hcount |]. split; [exact Hlen |]. split.
  - replace (pin <$> usedSlots st') with (pin <$> usedSlots st); [exact Hnodup |].
    apply list_eq. intros j. rewrite !list_lookup_fmap.
    destruct (usedSlots st' !! j) as [c' |] eqn:Hj'.
    + destruct (Hsame j c' Hj') as (c & Hj & Hp & _). rewrite Hj. simpl. congruence.
    + destruct (usedSlots st !! j) as [c |] eqn:Hj; [exfalso | reflexivity].
      apply usedSlots_lookup in Hj as (Hjc & Hlook & _).
      apply lookup_ge_None in Hj'. unfold usedSlots in Hj'.
      rewrite length_take in Hj'. apply lookup_lt_Some in Hlook. lia.
  - apply Forall_lookup. intros j c' Hj'.
    destruct (Hsame j c' Hj') as (c & Hj & _ & He). rewrite He.
    apply (proj1 (Forall_lookup _ _) Hen j c Hj).
Qed.

(** X7: a table whose slots in use are all enabled and hold distinct pins
    stays so under every call of [setPWM] with a nonzero duty and every
    call of [updateSoftPWM]: as long as no channel is ever stopped, no pin
    gets a second slot. *)
Theorem distinctEnabled_preserved (st : Firmware) :
  distinctEnabled st ->
  (forall p duty now, duty <> 0%Z -> distinctEnabled (setPWM p duty now st).2) /\
  (forall now, distinctEnabled (updateSoftPWM now st)).
Proof.
  intros Hinv. split.
  - intros p duty now Hduty. apply distinctEnabled_setPWM; assumption.
  - intros now. apply distinctEnabled_updateSoftPWM. exact Hinv.
Qed.

Lemma distinctEnabled_init : distinctEnabled initFirmware.
Proof.
  unfold distinctEnabled, usedSlots; simpl.
  split; [unfold MAX_SOFT_PWM; lia |]. split; [reflexivity |].
  split; constructor.
Qed.

Lemma distinctEnabled_preserved_witness :
  distinctEnabled (setPWM 4 50 3 (setPWM 4 100 1 (setPWM 2 100 0 initFirmware).2).2).2 /\
  distinctEnabled (updateSoftPWM 40 initFirmware).
Proof.
  destruct (distinctEnabled_preserved initFirmware distinctEnabled_init) as [Hset Hupd].
  split; [| apply Hupd].
  apply distinctEnabled_setPWM; [discriminate |].
  apply distinctEnabled_setPWM; [discriminate |].
  apply Hset. discriminate.
Defined.

(** ** The on-time *)

(** X8: for a duty cycle that is a byte the on-time lies between 0 and the
    period; it is the whole period for duty 255 only, and it is 0 for
    every duty below 13, for which a channel switched on is switched off
    again by the next call. *)
Theorem onTime_bounds (c : SoftPWM) :
  (0 <= dutyCycle c < 256)%Z ->
  (0 <= onTime c <= period)%Z /\
  (onTime c = period <-> dutyCycle c = 255%Z) /\
  (onTime c = 0%Z <-> (dutyCycle c < 13)%Z).
Proof.
  intros Hd. rewrite (onTime_byte c Hd).
  unfold period, SOFT_PWM_FREQ. change (1000 / 50)%Z with 20%Z.
  pose proof (Z.div_mod (20 * dutyCycle c) 255 ltac:(lia)) as Hdm.
  pose proof (Z.mod_pos_bound (20 * dutyCycle c) 255 ltac:(lia)) as Hmod.
  repeat split; intros; lia.
Qed.

Lemma onTime_bounds_witness :
  (0 <= onTime (mkSoftPWM 2 128 0 false true) <= period)%Z /\
  onTime (mkSoftPWM 2 128 0 false true) = 10%Z.
Proof.
  destruct (onTime_bounds (mkSoftPWM 2 128 0 false true)) as [Hb _].
  - simpl. lia.
  - split; [exact Hb | reflexivity].
Defined.

(** * Further properties of the command interpreter *)

(** ** Multi-byte fields *)

Lemma littleEndian_bytes (n : nat) :
  forall v : Z, Forall (fun b => (0 <= b < 256)%Z) (littleEndian n v).
Proof.
  induction n as [| n IH]; intros v; simpl; constructor; [| apply IH].
  apply Z.mod_pos_bound. lia.
Qed.

Lemma fromLittleEndian_littleEndian (n : nat) :
  forall v : Z, fromLittleEndian (littleEndian n v) = (v mod 256 ^ Z.of_nat n)%Z.
Proof.
  induction n as [| n IH]; intros v.
  - simpl. rewrite Z.mod_1_r. reflexivity.
  - cbn [littleEndian fromLittleEndian]. rewrite IH.
    rewrite Nat2Z.inj_succ, Z.pow_succ_r by lia.
    rewrite Z.rem_mul_r by lia. reflexivity.
Qed.

Lemma sendUInt16_out (v : Z) (st : Firmware) :
  sendUInt16 v st = set_serialOut (serialOut st ++ littleEndian 2 v) st.
Proof.
  unfold sendUInt16, serialWrite; simpl.
  rewrite <- !app_assoc, !u8_land_255, !shiftr_8. simpl.
  destruct st; reflexivity.
Qed.

Lemma sendUInt32_out (v : Z) (st : Firmware) :
  sendUInt32 v st = set_serialOut (serialOut st ++ littleEndian 4 v) st.
Proof.
  unfold sendUInt32, serialWrite; simpl.
  rewrite <- !app_assoc, !u8_land_255. simpl.
  rewrite !(Z.shiftr_div_pow2 v) by lia.
  change (2 ^ 8)%Z with 256%Z.
  rewrite !Z.div_div by lia.
  destruct st; reflexivity.
Qed.

(** X9: [sendUInt16] and [sendUInt32] write the two and the four low bytes
    of their argument, lowest first: read back in that order the bytes give
    the argument modulo [2^16] and [2^32]; nothing but the serial output
    changes. *)
Theorem sendUInt_little_endian (v : Z) (st : Firmware) :
  sendUInt16 v st = set_serialOut (serialOut st ++ littleEndian 2 v) st /\
  sendUInt32 v st = set_serialOut (serialOut st ++ littleEndian 4 v) st /\
  fromLittleEndian (littleEndian 2 v) = (v mod 2 ^ 16)%Z /\
  fromLittleEndian (littleEndian 4 v) = (v mod 2 ^ 32)%Z /\
  Forall (fun b => (0 <= b < 256)%Z) (littleEndian 2 v ++ littleEndian 4 v).
Proof.
  split; [apply sendUInt16_out |]. split; [apply sendUInt32_out |].
  split; [apply (fromLittleEndian_littleEndian 2) |].
  split; [apply (fromLittleEndian_littleEndian 4) |].
  apply Forall_app. split; apply littleEndian_bytes.
Qed.

#[local] Arguments Z.modulo : simpl never.
#[local] Arguments Z.div : simpl never.
#[local] Arguments Z.land : simpl never.
#[local] Arguments Z.shiftr : simpl never.
#[local] Arguments Z.pow : simpl never.
#[local] Arguments u8 : simpl never.
#[local] Arguments u16 : simpl never.

(** ** The reply to the info command *)

Lemma set_serialOut_id (st : Firmware) : st = set_serialOut (serialOut st) st.
Proof. destruct st; reflexivity. Qed.

Lemma serialWrite_acc (b : Z) (l : list Z) (st : Firmware) :
  serialWrite b (set_serialOut l st) = set_serialOut (l ++ [u8 b]) st.
Proof. reflexivity. Qed.

Lemma sendUInt16_acc (v : Z) (l : list Z) (st : Firmware) :
  sendUInt16 v (set_serialOut l st) = set_serialOut (l ++ littleEndian 2 v) st.
Proof. rewrite sendUInt16_out. reflexivity. Qed.

Lemma sendUInt32_acc (v : Z) (l : list Z) (st : Firmware) :
  sendUInt32 v (set_serialOut l st) = set_serialOut (l ++ littleEndian 4 v) st.
Proof. rewrite sendUInt32_out. reflexivity. Qed.

Lemma serialWriteAll_acc (bs : list Z) :
  forall (l : list Z) (st : Firmware),
    serialWriteAll bs (set_serialOut l st) = set_serialOut (l ++ (u8 <$> bs)) st.
Proof.
  unfold serialWriteAll.
  induction bs as [| b bs IH]; intros l st; simpl.
  - rewrite app_nil_r. reflexivity.
  - rewrite serialWrite_acc, IH, <- app_assoc. reflexivity.
Qed.

(** [sendInfo] writes the payload and changes nothing else. *)
Lemma sendInfo_out (env : Env) (st : Firmware) :
  sendInfo env st = set_serialOut (serialOut st ++ infoPayload env) st.
Proof.
  unfold sendInfo. cbv zeta.
  rewrite (set_serialOut_id st) at 1.
  repeat first [ rewrite sendUInt16_acc | rewrite sendUInt32_acc
               | rewrite serialWrite_acc | rewrite serialWriteAll_acc ].
  f_equal. rewrite <- !app_assoc. f_equal.
Qed.

(** The bytes [sendResponse] writes, by the fields of the result. *)
Lemma sendResponse_out (st : Firmware) :
  sendResponse st
  = set_serialOut
      (serialOut st
       ++ if hasError (result st) then [ERROR_CODE]
          else (if hasOutput (result st)
                then (outputValue (result st) mod 2 ^ 8)%Z
                     :: (if isTwoByteOutput (result st)
                         then [((outputValue (result st) / 2 ^ 8) mod 2 ^ 8)%Z]
                         else [])
                else [])
               ++ [SUCCESS_CODE])
      st.
Proof.
  unfold sendResponse, serialWrite.
  destruct st as [t n b k [e o w v] pl so sl]; simpl.
  destruct e, o, w; simpl; rewrite <- ?app_assoc; simpl;
    rewrite ?u8_land_255, ?shiftr_8; reflexivity.
Qed.

(** X10: the info command is answered by the payload, 54 bytes that start
    with the magic number [0xB416], low byte first, then by a zero byte,
    the low byte of the unused [outputValue], and only then by
    [SUCCESS_CODE]; the pins and the channel table are left alone. *)
Theorem info_response (A0 : Z) (env : Env) (st : Firmware) :
  byteAt 0 st = CMD_INFO ->
  exists st',
    executeBufferedCommand A0 env st = Returned st' /\
    serialOut (sendResponse st')
    = serialOut st ++ infoPayload env ++ [0%Z; SUCCESS_CODE] /\
    length (infoPayload env) = 54%nat /\
    take 2 (infoPayload env) = [0x16; 0xB4]%Z /\
    pinLog (sendResponse st') = pinLog st /\
    softPWM (sendResponse st') = softPWM st /\
    softPWMCount (sendResponse st') = softPWMCount st.
Proof.
  intros Hop. unfold executeBufferedCommand. cbv zeta.
  change (byteAt 0 (set_result _ st)) with (byteAt 0 st). rewrite Hop.
  change (negb (CMD_INFO =? CMD_NOP)%Z && negb (CMD_INFO =? CMD_RESET)%Z
          && negb (CMD_INFO =? CMD_INFO)%Z) with false.
  cbv iota. unfold runCommand.
  change (CMD_INFO =? CMD_NOP)%Z with false.
  change (CMD_INFO =? CMD_INFO)%Z with true. cbv iota.
  rewrite sendInfo_out.
  eexists. split; [reflexivity |].
  split; [| split; [reflexivity | split; [reflexivity |]]].
  - generalize (infoPayload env). intros payload.
    rewrite sendResponse_out. simpl. rewrite <- !app_assoc. reflexivity.
  - generalize (infoPayload env). intros payload. repeat split.
Qed.

Lemma info_response_witness :
  exists st',
    executeBufferedCommand 14 (quietEnv 258)
      (set_bufferIndex 1 (set_commandBuffer [1]%Z initFirmware)) = Returned st' /\
    take 10 (serialOut (sendResponse st')) = [0x16; 0xB4; 1; 0; 2; 1; 0; 0; 0xDC; 0x05]%Z /\
    drop 54 (serialOut (sendResponse st')) = [0%Z; SUCCESS_CODE].
Proof.
  destruct (info_response 14 (quietEnv 258)
              (set_bufferIndex 1 (set_commandBuffer [1]%Z initFirmware)))
    as (st' & Hrun & Hout & _); [reflexivity |].
  exists st'. split; [exact Hrun |]. rewrite Hout. split; reflexivity.
Defined.

(** ** Responses and their terminator *)

Lemma setPWM_host (p duty now : Z) (st : Firmware) :
  result (setPWM p duty now st).2 = result st /\
  serialOut (setPWM p duty now st).2 = serialOut st.
Proof.
  destruct (isHardwarePWMPin p) eqn:Hhw.
  { unfold setPWM. rewrite Hhw. split; reflexivity. }
  destruct (setPWM_soft p duty now st Hhw) as [log ->]. cbv zeta.
  destruct (MAX_SOFT_PWM <=? _)%nat; [split; reflexivity |].
  destruct (duty =? 0)%Z.
  - destruct (_ <? _)%nat; split; reflexivity.
  - split; reflexivity.
Qed.

Lemma resetScan_result (p : Z) (n : nat) :
  forall (i : nat) (st : Firmware), result (resetScan p n i st) = result st.
Proof.
  induction n as [| n IH]; intros i st; simpl; [reflexivity |].
  destruct (pin (slot i st) =? p)%Z; [reflexivity |]. rewrite IH. reflexivity.
Qed.

(** What each branch of the [switch] sends, on a fresh result. *)
Lemma runCommand_response (env : Env) (command p : Z) (st : Firmware) :
  result st = mkResult false false false 0 ->
  match runCommand env command p st with
  | Returned st' =>
      exists out,
        serialOut (sendResponse st')
        = serialOut st ++ out
          ++ [if hasError (result st') then ERROR_CODE else SUCCESS_CODE] /\
        (hasError (result st') = true -> out = [])
  | Restarted s =>
      command = CMD_RESET /\
      s = set_serialOut (serialOut st ++ [SUCCESS_CODE]) st
  end.
Proof.
  intros Hres. unfold runCommand.
  destruct (command =? CMD_NOP)%Z.
  { exists []. rewrite sendResponse_out, Hres. simpl. split; [reflexivity | auto]. }
  destruct (command =? CMD_INFO)%Z.
  { rewrite sendInfo_out. generalize (infoPayload env). intros payload.
    exists (payload ++ [0%Z]). rewrite sendResponse_out. simpl. rewrite Hres; simpl.
    rewrite <- !app_assoc. split; [reflexivity | discriminate]. }
  destruct (command =? CMD_DIGITALREAD)%Z.
  { exists [(u16 (digitalReadOf env p) mod 2 ^ 8)%Z]. rewrite sendResponse_out. simpl. rewrite Hres; simpl.
    split; [reflexivity | discriminate]. }
  destruct (command =? CMD_DIGITALWRITE)%Z.
  { exists []. rewrite sendResponse_out. simpl.
    destruct (resetScan_table p (softPWMCount st) 0 st) as (_ & _ & Hs & _).
    unfold resetPWM. rewrite resetScan_result, Hres, Hs. simpl.
    split; [reflexivity | auto]. }
  destruct (command =? CMD_ANALOGREAD)%Z.
  { exists [(u16 (analogReadOf env p) mod 2 ^ 8)%Z;
            ((u16 (analogReadOf env p) / 2 ^ 8) mod 2 ^ 8)%Z].
    rewrite sendResponse_out. simpl. rewrite Hres; simpl.
    split; [reflexivity | discriminate]. }
  destruct (command =? CMD_ANALOGWRITE)%Z.
  { destruct (setPWM_host p (byteAt 2 st) (millisAtCommand env) st) as [Hr Hs].
    destruct (setPWM p (byteAt 2 st) (millisAtCommand env) st) as [ok st1].
    simpl in Hr, Hs. exists []. rewrite sendResponse_out. simpl.
    rewrite Hr, Hres, Hs. destruct ok; simpl; split; reflexivity || auto. }
  destruct (Z.eqb_spec command CMD_RESET) as [Heq | _].
  { split; [exact Heq |]. rewrite sendResponse_out. simpl.
    destruct st; simpl in *; subst. reflexivity. }
  destruct (command =? CMD_PINMODE)%Z.
  - exists []. rewrite sendResponse_out. simpl. rewrite Hres. simpl.
    split; [reflexivity | auto].
  - exists []. rewrite sendResponse_out. simpl. split; reflexivity.
Qed.

(** X11: the reset command, and no other, ends in the restart of the
    firmware, after it has written [SUCCESS_CODE] alone, the pins and the
    channel table being as they were; every other first byte makes the
    command return.  Whatever the buffer holds, a command that returns is
    answered by bytes that end in [ERROR_CODE] when it failed and in
    [SUCCESS_CODE] when it did not, and a failed command is answered by
    [ERROR_CODE] alone. *)
Theorem response_terminator (A0 : Z) (env : Env) (st : Firmware) :
  match executeBufferedCommand A0 env st with
  | Returned st' =>
      exists out,
        serialOut (sendResponse st')
        = serialOut st ++ out
          ++ [if hasError (result st') then ERROR_CODE else SUCCESS_CODE] /\
        (hasError (result st') = true -> out = [])
  | Restarted s =>
      byteAt 0 st = CMD_RESET /\
      serialOut s = serialOut st ++ [SUCCESS_CODE] /\
      pinLog s = pinLog st /\ softPWM s = softPWM st /\
      softPWMCount s = softPWMCount st
  end /\
  (byteAt 0 st = CMD_RESET ->
   executeBufferedCommand A0 env st
   = Restarted (set_serialOut (serialOut st ++ [SUCCESS_CODE])
                  (set_result (mkResult false false false 0) st))) /\
  (byteAt 0 st <> CMD_RESET ->
   exists st', executeBufferedCommand A0 env st = Returned st').
Proof.
  split; [| split].
  - unfold executeBufferedCommand. cbv zeta.
    change (byteAt 0 (set_result _ st)) with (byteAt 0 st).
    change (byteAt 1 (set_result _ st)) with (byteAt 1 st).
    destruct (negb (byteAt 0 st =? CMD_NOP)%Z && _ && _).
    + destruct (readPin A0 (byteAt 1 st) false) as [p error].
      destruct error.
      * exists []. rewrite sendResponse_out. simpl. split; reflexivity.
      * pose proof (runCommand_response env (byteAt 0 st) p
                      (set_hasError false (set_result (mkResult false false false 0) st))
                      eq_refl) as H.
        destruct (runCommand env (byteAt 0 st) p _) as [st' | s].
        -- exact H.
        -- destruct H as [Hop ->]. repeat split. exact Hop.
    + pose proof (runCommand_response env (byteAt 0 st) 0
                    (set_result (mkResult false false false 0) st) eq_refl) as H.
      destruct (runCommand env (byteAt 0 st) 0 _) as [st' | s].
      * exact H.
      * destruct H as [Hop ->]. repeat split. exact Hop.
  - intros Hop. unfold executeBufferedCommand. cbv zeta.
    change (byteAt 0 (set_result _ st)) with (byteAt 0 st). rewrite Hop.
    change (negb (CMD_RESET =? CMD_NOP)%Z && negb (CMD_RESET =? CMD_RESET)%Z
            && negb (CMD_RESET =? CMD_INFO)%Z) with false.
    cbv iota. unfold runCommand.
    change (CMD_RESET =? CMD_NOP)%Z with false.
    change (CMD_RESET =? CMD_INFO)%Z with false.
    change (CMD_RESET =? CMD_DIGITALREAD)%Z with false.
    change (CMD_RESET =? CMD_DIGITALWRITE)%Z with false.
    change (CMD_RESET =? CMD_ANALOGREAD)%Z with false.
    change (CMD_RESET =? CMD_ANALOGWRITE)%Z with false.
    change (CMD_RESET =? CMD_RESET)%Z with true.
    cbv iota. rewrite sendResponse_out. reflexivity.
  - intros Hop.
    destruct (executeBufferedCommand_returns A0 env st Hop) as (st' & Hrun & _).
    exists st'. exact Hrun.
Qed.

Lemma response_terminator_witness :
  executeBufferedCommand 14 (quietEnv 0)
    (set_bufferIndex 2 (set_commandBuffer [7; 5]%Z initFirmware))
  = Restarted
      (set_serialOut
         (serialOut (set_bufferIndex 2 (set_commandBuffer [7; 5]%Z initFirmware))
          ++ [SUCCESS_CODE])
         (set_result (mkResult false false false 0)
            (set_bufferIndex 2 (set_commandBuffer [7; 5]%Z initFirmware)))) /\
  exists st',
    executeBufferedCommand 14 (quietEnv 0)
      (set_bufferIndex 2 (set_commandBuffer [2; 22]%Z initFirmware)) = Returned st'.
Proof.
  destruct (response_terminator 14 (quietEnv 0)
              (set_bufferIndex 2 (set_commandBuffer [7; 5]%Z initFirmware)))
    as (_ & Hreset & _).
  destruct (response_terminator 14 (quietEnv 0)
              (set_bufferIndex 2 (set_commandBuffer [2; 22]%Z initFirmware)))
    as (_ & _ & Hother).
  split; [exact (Hreset eq_refl) | apply Hother; vm_compute; discriminate].
Defined.

(** ** Dispatch, command by command *)

Lemma readPin_valid (A0 b : Z) :
  (b < TOTAL_PINS)%Z -> (readPin A0 b false).2 = false.
Proof.
  intros Hb. unfold readPin.
  destruct (b <? DIGITAL_PINS)%Z; [reflexivity |].
  destruct (Z.ltb_spec b TOTAL_PINS); [reflexivity | lia].
Qed.

(** Evaluates the comparisons between opcodes. *)
Ltac eval_opcodes :=
  repeat match goal with
         | |- context [(?a =? ?b)%Z] =>
             let r := eval vm_compute in (a =? b)%Z in
             change (a =? b)%Z with r
         end;
  cbn [negb andb]; cbv iota.

(** X12: on a valid pin index the read commands drive no pin and leave the
    channel table alone; digital-read answers with the low byte of the
    level read and [SUCCESS_CODE], analog-read with the two bytes of the
    value read, low byte first, and [SUCCESS_CODE], so that the value read
    back from the two bytes is the value converted, modulo [2^16]. *)
Theorem read_commands_response (A0 : Z) (env : Env) (st : Firmware) :
  (byteAt 1 st < TOTAL_PINS)%Z ->
  let p := (readPin A0 (byteAt 1 st) false).1 in
  (byteAt 0 st = CMD_DIGITALREAD ->
   exists st',
     executeBufferedCommand A0 env st = Returned st' /\
     serialOut (sendResponse st')
     = serialOut st ++ [((digitalReadOf env p mod 2 ^ 16) mod 256)%Z; SUCCESS_CODE] /\
     pinLog (sendResponse st') = pinLog st /\
     softPWM (sendResponse st') = softPWM st /\
     softPWMCount (sendResponse st') = softPWMCount st) /\
  (byteAt 0 st = CMD_ANALOGREAD ->
   exists st',
     executeBufferedCommand A0 env st = Returned st' /\
     serialOut (sendResponse st')
     = serialOut st ++ littleEndian 2 (analogReadOf env p mod 2 ^ 16)
       ++ [SUCCESS_CODE] /\
     fromLittleEndian (littleEndian 2 (analogReadOf env p mod 2 ^ 16))
     = (analogReadOf env p mod 2 ^ 16)%Z /\
     pinLog (sendResponse st') = pinLog st /\
     softPWM (sendResponse st') = softPWM st /\
     softPWMCount (sendResponse st') = softPWMCount st).
Proof.
  intros Hpin p. pose proof (readPin_valid A0 (byteAt 1 st) Hpin) as Hok.
  subst p. split; intros Hop.
  - unfold executeBufferedCommand. cbv zeta.
    change (byteAt 0 (set_result _ st)) with (byteAt 0 st).
    change (byteAt 1 (set_result _ st)) with (byteAt 1 st).
    rewrite Hop. destruct (readPin A0 (byteAt 1 st) false) as [p error].
    simpl in Hok. subst error. unfold runCommand. eval_opcodes.
    eexists. split; [reflexivity |]. rewrite sendResponse_out. simpl.
    repeat split.
  - unfold executeBufferedCommand. cbv zeta.
    change (byteAt 0 (set_result _ st)) with (byteAt 0 st).
    change (byteAt 1 (set_result _ st)) with (byteAt 1 st).
    rewrite Hop. destruct (readPin A0 (byteAt 1 st) false) as [p error].
    simpl in Hok. subst error. unfold runCommand. eval_opcodes.
    eexists. split; [reflexivity |].
    split; [rewrite sendResponse_out; reflexivity |].
    split; [| rewrite sendResponse_out; repeat split].
    rewrite (fromLittleEndian_littleEndian 2).
    change (256 ^ Z.of_nat 2)%Z with (2 ^ 16)%Z. apply Z.mod_mod. lia.
Qed.

Lemma read_commands_response_witness :
  exists st',
    executeBufferedCommand 14 (mkEnv 0 0 (fun _ => 1%Z) (fun _ => 1023%Z) 1500)
      (set_bufferIndex 2 (set_commandBuffer [4; 15]%Z initFirmware)) = Returned st' /\
    serialOut (sendResponse st') = [0xFF; 0x03; SUCCESS_CODE]%Z.
Proof.
  destruct (read_commands_response 14 (mkEnv 0 0 (fun _ => 1%Z) (fun _ => 1023%Z) 1500)
              (set_bufferIndex 2 (set_commandBuffer [4; 15]%Z initFirmware)))
    as [_ Hanalog]; [vm_compute; reflexivity |].
  destruct Hanalog as (st' & Hrun & Hout & _); [reflexivity |].
  exists st'. split; [exact Hrun | exact Hout].
Defined.

(** X13: a first byte that is no opcode is answered by [ERROR_CODE] alone
    and changes nothing but the result, whether or not the byte after it
    happens to be a valid pin index. *)
Theorem unknown_opcode (A0 : Z) (env : Env) (st : Firmware) :
  ~ (0 <= byteAt 0 st <= 7)%Z ->
  executeBufferedCommand A0 env st
  = Returned (set_result (mkResult true false false 0) st) /\
  sendResponse (set_result (mkResult true false false 0) st)
  = set_serialOut (serialOut st ++ [ERROR_CODE])
      (set_result (mkResult true false false 0) st) /\
  getRequiredArgs (byteAt 0 st) = 0%Z.
Proof.
  intros Hop. split; [| split].
  - unfold executeBufferedCommand, runCommand. cbv zeta.
    change (byteAt 0 (set_result _ st)) with (byteAt 0 st).
    change (byteAt 1 (set_result _ st)) with (byteAt 1 st).
    unfold CMD_NOP, CMD_INFO, CMD_DIGITALREAD, CMD_DIGITALWRITE, CMD_ANALOGREAD,
      CMD_ANALOGWRITE, CMD_PINMODE, CMD_RESET.
    repeat match goal with
           | |- context [(byteAt 0 st =? ?c)%Z] =>
               destruct (Z.eqb_spec (byteAt 0 st) c); [lia |]
           end.
    cbn [negb andb]. cbv iota.
    destruct (readPin A0 (byteAt 1 st) false) as [p error].
    destruct error; reflexivity.
  - rewrite sendResponse_out. reflexivity.
  - unfold getRequiredArgs, CMD_NOP, CMD_INFO, CMD_DIGITALREAD, CMD_DIGITALWRITE,
      CMD_ANALOGREAD, CMD_ANALOGWRITE, CMD_PINMODE, CMD_RESET.
    repeat match goal with
           | |- context [(byteAt 0 st =? ?c)%Z] =>
               destruct (Z.eqb_spec (byteAt 0 st) c); [lia |]
           end.
    reflexivity.
Qed.

Lemma unknown_opcode_witness :
  executeBufferedCommand 14 (quietEnv 0)
    (set_bufferIndex 2 (set_commandBuffer [9; 4]%Z initFirmware))
  = Returned (set_result (mkResult true false false 0)
                (set_bufferIndex 2 (set_commandBuffer [9; 4]%Z initFirmware))).
Proof.
  apply (unknown_opcode 14 (quietEnv 0)
           (set_bufferIndex 2 (set_commandBuffer [9; 4]%Z initFirmware))).
  vm_compute. intros [_ H]. apply H. reflexivity.
Defined.

(** X14: analog-write on a valid pin index answers [SUCCESS_CODE] alone
    when [setPWM] succeeded and [ERROR_CODE] alone when it failed, the
    state being the one [setPWM] left; on a pin with hardware PWM it
    succeeds with one [analogWrite] and the table untouched, and on
    another pin it fails when the table is full of enabled channels on
    other pins, the table staying as it was. *)
Theorem analog_write_response (A0 : Z) (env : Env) (st : Firmware) :
  byteAt 0 st = CMD_ANALOGWRITE -> (byteAt 1 st < TOTAL_PINS)%Z ->
  let p := (readPin A0 (byteAt 1 st) false).1 in
  let r := setPWM p (byteAt 2 st) (millisAtCommand env)
             (set_result (mkResult false false false 0) st) in
  executeBufferedCommand A0 env st = Returned (set_hasError (negb r.1) r.2) /\
  serialOut (sendResponse (set_hasError (negb r.1) r.2))
  = serialOut st ++ [if r.1 then SUCCESS_CODE else ERROR_CODE] /\
  (isHardwarePWMPin p = true ->
   r.1 = true /\ softPWM r.2 = softPWM st /\ softPWMCount r.2 = softPWMCount st /\
   pinLog r.2 = pinLog st ++ [AnalogWrite p (byteAt 2 st)]) /\
  (isHardwarePWMPin p = false -> tableFull p st ->
   r.1 = false /\ softPWM r.2 = softPWM st /\ softPWMCount r.2 = softPWMCount st /\
   pinLog r.2 = pinLog st ++ [DigitalWrite p LOW]).
Proof.
  intros Hop Hpin p r. pose proof (readPin_valid A0 (byteAt 1 st) Hpin) as Hok.
  subst r p.
  destruct (readPin A0 (byteAt 1 st) false) as [p error] eqn:Hrp.
  simpl in Hok. subst error. cbn [fst].
  set (st0 := set_result (mkResult false false false 0) st).
  destruct (setPWM_host p (byteAt 2 st) (millisAtCommand env) st0) as [Hres Hser].
  split; [| split; [| split]].
  - unfold executeBufferedCommand. cbv zeta.
    change (byteAt 0 (set_result _ st)) with (byteAt 0 st).
    change (byteAt 1 (set_result _ st)) with (byteAt 1 st).
    rewrite Hop, Hrp. unfold runCommand. eval_opcodes.
    change (set_hasError false (set_result (mkResult false false false 0) st)) with st0.
    change (byteAt 2 st0) with (byteAt 2 st).
    destruct (setPWM p (byteAt 2 st) (millisAtCommand env) st0) as [ok st1].
    reflexivity.
  - rewrite sendResponse_out.
    destruct (setPWM p (byteAt 2 st) (millisAtCommand env) st0) as [ok st1].
    simpl in Hres, Hser |- *. rewrite Hres, Hser. destruct ok; reflexivity.
  - intros Hhw. unfold setPWM. rewrite Hhw. repeat split.
  - intros Hhw Hfull.
    destruct (setPWM_full p (byteAt 2 st) (millisAtCommand env) st0 Hhw)
      as (st' & Hrun & Hst'); [exact Hfull |].
    rewrite Hrun. simpl. rewrite Hst'. repeat split.
Qed.

Lemma analog_write_response_witness :
  exists st',
    executeBufferedCommand 14 (quietEnv 7)
      (set_bufferIndex 3 (set_commandBuffer [5; 14; 100]%Z sixChannels)) = Returned st' /\
    serialOut (sendResponse st') = serialOut sixChannels ++ [ERROR_CODE].
Proof.
  destruct (analog_write_response 14 (quietEnv 7)
              (set_bufferIndex 3 (set_commandBuffer [5; 14; 100]%Z sixChannels)))
    as (Hrun & Hout & _); [reflexivity | vm_compute; reflexivity |].
  eexists. split; [exact Hrun |]. rewrite Hout. vm_compute. reflexivity.
Defined.

Lemma resetScan_set_result (p : Z) (n : nat) :
  forall (i : nat) (st : Firmware) (r : CommandResult),
    softPWM (resetScan p n i (set_result r st)) = softPWM (resetScan p n i st).
Proof.
  induction n as [| n IH]; intros i st r; [reflexivity |].
  simpl. change (slot i (set_result r st)) with (slot i st).
  destruct (pin (slot i st) =? p)%Z; [reflexivity |].
  change (touch i (set_result r st)) with (set_result r (touch i st)).
  apply IH.
Qed.

(** X15: digital-write on a valid pin index runs [resetPWM] on the pin,
    then writes the level, and answers [SUCCESS_CODE] alone; the count of
    channels stays, and when the slots in use hold distinct pins no
    enabled channel is left on the pin. *)
Theorem digital_write_dispatch (A0 : Z) (env : Env) (st : Firmware) :
  byteAt 0 st = CMD_DIGITALWRITE -> (byteAt 1 st < TOTAL_PINS)%Z ->
  let p := (readPin A0 (byteAt 1 st) false).1 in
  exists st',
    executeBufferedCommand A0 env st = Returned st' /\
    softPWM st' = softPWM (resetPWM p st) /\
    softPWMCount st' = softPWMCount st /\
    pinLog st' = pinLog st ++ [DigitalWrite p (byteAt 2 st)] /\
    serialOut (sendResponse st') = serialOut st ++ [SUCCESS_CODE] /\
    ((softPWMCount st <= length (softPWM st))%nat ->
     NoDup (pin <$> usedSlots st) ->
     forall j, (j < softPWMCount st')%nat -> pin (slot j st') = p ->
               enabled (slot j st') = false).
Proof.
  intros Hop Hpin p. pose proof (readPin_valid A0 (byteAt 1 st) Hpin) as Hok.
  subst p.
  destruct (readPin A0 (byteAt 1 st) false) as [p error] eqn:Hrp.
  simpl in Hok. subst error. cbn [fst].
  set (st0 := set_hasError false (set_result (mkResult false false false 0) st)).
  exists (digitalWrite p (byteAt 2 st) (resetPWM p st0)).
  destruct (resetScan_table p (softPWMCount st0) 0 st0) as (Hc & Hl & Hs & _).
  fold (resetPWM p st0) in Hc, Hl, Hs.
  assert (Htable : softPWM (resetPWM p st0) = softPWM (resetPWM p st)).
  { unfold resetPWM. change (softPWMCount st0) with (softPWMCount st).
    change st0 with (set_result (mkResult false false false 0) st).
    apply resetScan_set_result. }
  split.
  - unfold executeBufferedCommand. cbv zeta.
    change (byteAt 0 (set_result _ st)) with (byteAt 0 st).
    change (byteAt 1 (set_result _ st)) with (byteAt 1 st).
    rewrite Hop, Hrp. unfold runCommand. eval_opcodes. reflexivity.
  - split; [exact Htable |]. split; [exact Hc |].
    split; [simpl; rewrite Hl; reflexivity |].
    split.
    + assert (Hres : result (resetPWM p st0) = result st0)
        by apply resetScan_result.
      rewrite sendResponse_out.
      change (result (digitalWrite p (byteAt 2 st) (resetPWM p st0)))
        with (result (resetPWM p st0)).
      change (serialOut (digitalWrite p (byteAt 2 st) (resetPWM p st0)))
        with (serialOut (resetPWM p st0)).
      rewrite Hres, Hs. reflexivity.
    + intros Hlen Hnodup j Hj Hpj.
      change (slot j (digitalWrite p (byteAt 2 st) (resetPWM p st0)))
        with (slot j (resetPWM p st0)) in *.
      unfold slot in *. rewrite Htable in *.
      apply (resetPWM_clears p st Hlen Hnodup j); [| exact Hpj].
      simpl in Hj. rewrite Hc in Hj. exact Hj.
Qed.

Lemma digital_write_dispatch_witness :
  exists st',
    executeBufferedCommand 14 (quietEnv 7)
      (set_bufferIndex 3 (set_commandBuffer [3; 4; 0]%Z sixChannels)) = Returned st' /\
    pinLog st' = pinLog sixChannels ++ [DigitalWrite 4 LOW] /\
    enabled (slot 1 st') = false.
Proof.
  destruct (digital_write_dispatch 14 (quietEnv 7)
              (set_bufferIndex 3 (set_commandBuffer [3; 4; 0]%Z sixChannels)))
    as (st' & Hrun & Htab & Hc & Hlog & _ & Hclear);
    [reflexivity | vm_compute; reflexivity |].
  exists st'. split; [exact Hrun |].
  split; [rewrite Hlog; vm_compute; reflexivity |].
  apply Hclear.
  - vm_compute. lia.
  - apply (bool_decide_unpack _). vm_compute. exact I.
  - rewrite Hc. vm_compute. lia.
  - unfold slot. rewrite Htab. vm_compute. reflexivity.
Defined.

(** * Further properties of the main loop *)

(** ** The read loop *)

(** X16: the read loop takes bytes from the serial port while the buffer
    has room: as many as fit, in order, each stored at the next free
    offset; the bytes before them stay, the bytes that do not fit stay in
    the port, and nothing but the buffer and its count changes. *)
Theorem drain_appends (incoming : list Z) (st : Firmware) :
  bufferOK st ->
  let n := Nat.min (length incoming) (Z.to_nat (BUFFER_SIZE - bufferIndex st)) in
  let r := drain incoming st in
  r.2 = drop n incoming /\
  bufferIndex r.1 = (bufferIndex st + Z.of_nat n)%Z /\
  take (Z.to_nat (bufferIndex r.1)) (commandBuffer r.1)
  = take (Z.to_nat (bufferIndex st)) (commandBuffer st) ++ (u8 <$> take n incoming) /\
  r.1 = set_bufferIndex (bufferIndex r.1) (set_commandBuffer (commandBuffer r.1) st) /\
  bufferOK r.1.
Proof.
  revert st. induction incoming as [| b rest IH]; intros st Hok n r.
  - subst n r. simpl. rewrite app_nil_r, Z.add_0_r.
    split; [reflexivity |]. split; [reflexivity |]. split; [reflexivity |].
    split; [destruct st; reflexivity | exact Hok].
  - destruct Hok as [Hlen Hidx]. subst n r. simpl drain.
    destruct (Z.ltb_spec (bufferIndex st) BUFFER_SIZE) as [Hroom | Hfull].
    + set (st1 := set_bufferIndex (bufferIndex st + 1)
                    (set_commandBuffer
                       (<[Z.to_nat (bufferIndex st) := u8 b]> (commandBuffer st)) st)).
      assert (Hok1 : bufferOK st1).
      { unfold bufferOK; simpl. rewrite length_insert. split; [exact Hlen | lia]. }
      destruct (IH st1 Hok1) as (Hrest & Hi & Hbuf & Hshape & Hok').
      change (bufferIndex st1) with (bufferIndex st + 1)%Z in Hi, Hbuf.
      change (commandBuffer st1)
        with (<[Z.to_nat (bufferIndex st) := u8 b]> (commandBuffer st)) in Hbuf.
      replace (Nat.min (length (b :: rest)) (Z.to_nat (BUFFER_SIZE - bufferIndex st)))
        with (S (Nat.min (length rest)
                   (Z.to_nat (BUFFER_SIZE - (bufferIndex st + 1)))))
        by (cbn [length]; lia).
      split; [exact Hrest |]. split; [lia |]. split; [| split; [| exact Hok']].
      * rewrite Hbuf. simpl.
        replace (Z.to_nat (bufferIndex st + 1)) with (S (Z.to_nat (bufferIndex st)))
          by lia.
        rewrite (take_S_r _ _ (u8 b)) by (apply list_lookup_insert_eq; lia).
        rewrite take_insert_ge by lia. rewrite <- app_assoc. reflexivity.
      * rewrite Hshape at 1. reflexivity.
    + replace (Z.to_nat (BUFFER_SIZE - bufferIndex st)) with 0%nat by lia.
      rewrite Nat.min_0_r. simpl. rewrite app_nil_r, Z.add_0_r.
      split; [reflexivity |]. split; [reflexivity |]. split; [reflexivity |].
      split; [destruct st; reflexivity | split; assumption].
Qed.

Lemma drain_appends_witness :
  (drain [1; 2; 3; 4; 5]%Z
     (set_bufferIndex 8 (set_commandBuffer [6; 1; 0; 9; 9; 9; 9; 9; 0; 0]%Z initFirmware))).2
  = [3; 4; 5]%Z /\
  commandBuffer
    (drain [1; 2; 3; 4; 5]%Z
       (set_bufferIndex 8 (set_commandBuffer [6; 1; 0; 9; 9; 9; 9; 9; 0; 0]%Z initFirmware))).1
  = [6; 1; 0; 9; 9; 9; 9; 9; 1; 2]%Z.
Proof.
  destruct (drain_appends [1; 2; 3; 4; 5]%Z
              (set_bufferIndex 8
                 (set_commandBuffer [6; 1; 0; 9; 9; 9; 9; 9; 0; 0]%Z initFirmware)))
    as (Hrest & _).
  - split; [reflexivity | vm_compute; split; discriminate].
  - split; [exact Hrest | reflexivity].
Defined.

(** ** Bounds across passes of the main loop *)

Lemma drain_shape (incoming : list Z) :
  forall st : Firmware,
    (drain incoming st).1
    = set_bufferIndex (bufferIndex (drain incoming st).1)
        (set_commandBuffer (commandBuffer (drain incoming st).1) st).
Proof.
  induction incoming as [| b rest IH]; intros st; simpl.
  - destruct st; reflexivity.
  - destruct (bufferIndex st <? BUFFER_SIZE)%Z; [| destruct st; reflexivity].
    rewrite IH at 1. reflexivity.
Qed.

Lemma tableInv_runCommand (env : Env) (command p : Z) (st st' : Firmware) :
  tableInv st -> runCommand env command p st = Returned st' -> tableInv st'.
Proof.
  intros Hinv. unfold runCommand.
  destruct (command =? CMD_NOP)%Z; [intros H; injection H as <-; exact Hinv |].
  destruct (command =? CMD_INFO)%Z.
  { rewrite sendInfo_out. intros H; injection H as <-. exact Hinv. }
  destruct (command =? CMD_DIGITALREAD)%Z; [intros H; injection H as <-; exact Hinv |].
  destruct (command =? CMD_DIGITALWRITE)%Z.
  { intros H; injection H as <-.
    apply (resetScan_inv p (softPWMCount st) 0 st Hinv). lia. }
  destruct (command =? CMD_ANALOGREAD)%Z; [intros H; injection H as <-; exact Hinv |].
  destruct (command =? CMD_ANALOGWRITE)%Z.
  { pose proof (tableInv_setPWM p (byteAt 2 st) (millisAtCommand env) st Hinv) as Hs.
    destruct (setPWM p (byteAt 2 st) (millisAtCommand env) st) as [ok st1].
    intros H; injection H as <-. exact Hs. }
  destruct (command =? CMD_RESET)%Z; [discriminate |].
  destruct (command =? CMD_PINMODE)%Z; intros H; injection H as <-; exact Hinv.
Qed.

Lemma tableInv_executeBufferedCommand (A0 : Z) (env : Env) (st st' : Firmware) :
  tableInv st -> executeBufferedCommand A0 env st = Returned st' -> tableInv st'.
Proof.
  intros Hinv. unfold executeBufferedCommand. cbv zeta.
  destruct (negb _ && _ && _).
  - destruct (readPin A0 _ false) as [p error]. destruct error.
    + intros H; injection H as <-. exact Hinv.
    + apply tableInv_runCommand. exact Hinv.
  - apply tableInv_runCommand. exact Hinv.
Qed.

(** A pass that returns keeps the buffer and the channel table within
    their bounds. *)
Lemma loop_keeps_bounds (A0 : Z) (env : Env) (incoming rest : list Z)
    (st st' : Firmware) :
  bufferOK st -> tableInv st ->
  loop A0 env incoming st = (Returned st', rest) ->
  bufferOK st' /\ tableInv st'.
Proof.
  intros Hok Hinv. unfold loop.
  assert (Hok1 : bufferOK (updateSoftPWM (millisAtUpdate env) st)).
  { destruct (sameBuffer_updateLoop (millisAtUpdate env) (softPWMCount st) 0 st)
      as [Hb Hi].
    unfold bufferOK, updateSoftPWM. rewrite Hb, Hi. exact Hok. }
  assert (Hinv1 : tableInv (updateSoftPWM (millisAtUpdate env) st))
    by (apply updateLoop_inv; [exact Hinv | lia]).
  pose proof (drain_bufferOK incoming _ Hok1) as Hok2.
  pose proof (drain_shape incoming (updateSoftPWM (millisAtUpdate env) st)) as Hshape.
  destruct (drain incoming (updateSoftPWM (millisAtUpdate env) st)) as [st2 port].
  simpl in Hok2, Hshape.
  assert (Hinv2 : tableInv st2) by (rewrite Hshape; exact Hinv1).
  destruct (hasCompleteCommand st2) eqn:Hcomplete.
  - destruct (executeBufferedCommand A0 env st2) as [st3 | s] eqn:Hrun;
      [| discriminate].
    intros H; injection H as <- <-.
    pose proof (tableInv_executeBufferedCommand A0 env st2 st3 Hinv2 Hrun) as Hinv3.
    assert (Hreset : byteAt 0 st2 <> CMD_RESET).
    { intros Heq. unfold executeBufferedCommand, runCommand in Hrun.
      cbv zeta in Hrun.
      change (byteAt 0 (set_result _ st2)) with (byteAt 0 st2) in Hrun.
      rewrite Heq in Hrun. discriminate Hrun. }
    destruct (executeBufferedCommand_returns A0 env st2 Hreset) as (st3' & Hrun' & Hsame3).
    rewrite Hrun in Hrun'. injection Hrun' as <-.
    pose proof (sameBuffer_sendResponse st3) as Hsame4.
    destruct (sameBuffer_trans _ _ _ Hsame3 Hsame4) as [Hbuf Hidx].
    split.
    + unfold bufferOK; simpl. rewrite shiftLoop_length, Hbuf, Hidx.
      destruct Hok2 as [Hlen HN]. split; [exact Hlen |].
      unfold hasCompleteCommand in Hcomplete.
      apply andb_true_iff in Hcomplete as [_ Hlt]. apply Z.ltb_lt in Hlt.
      assert (Hbyte : byteAt 0 (sendResponse st3) = byteAt 0 st2)
        by (unfold byteAt; rewrite Hbuf; reflexivity).
      rewrite Hbyte.
      pose proof (getRequiredArgs_nonneg (byteAt 0 st2)). lia.
    + rewrite sendResponse_out. exact Hinv3.
  - intros H; injection H as <- <-. split; assumption.
Qed.

(** X17: the bounds hold across any number of passes of the main loop,
    whatever arrives at the serial port and whatever the pins read: the
    buffer stays an array of [BUFFER_SIZE] bytes with its count between 0
    and [BUFFER_SIZE], [softPWMCount] stays at most [MAX_SOFT_PWM], and
    every access to the channel table was below the count at its
    moment. *)
Theorem runLoop_keeps_bounds (A0 : Z) (passes : list (Env * list Z))
    (port : list Z) (st st' : Firmware) :
  bufferOK st -> tableInv st ->
  runLoop A0 passes port st = Some st' ->
  bufferOK st' /\ tableInv st'.
Proof.
  revert port st. induction passes as [| [env arriving] more IH];
    intros port st Hok Hinv Hrun; simpl in Hrun.
  - injection Hrun as <-. split; assumption.
  - destruct (loop A0 env (port ++ arriving) st) as [[st1 | s] port'] eqn:Hloop;
      [| discriminate].
    destruct (loop_keeps_bounds A0 env _ _ st st1 Hok Hinv Hloop) as [Hok1 Hinv1].
    apply (IH port' st1 Hok1 Hinv1 Hrun).
Qed.

Lemma runLoop_keeps_bounds_witness :
  exists st',
    runLoop 14 duplicateChannelPasses [] initFirmware = Some st' /\
    bufferOK st' /\ tableInv st'.
Proof.
  destruct (runLoop 14 duplicateChannelPasses [] initFirmware) as [st' |] eqn:Hrun;
    [| vm_compute in Hrun; discriminate Hrun].
  exists st'. split; [reflexivity |].
  apply (runLoop_keeps_bounds 14 duplicateChannelPasses [] initFirmware st').
  - split; [reflexivity | unfold BUFFER_SIZE; simpl; lia].
  - apply tableInv_init.
  - exact Hrun.
Defined.

(** X18: a pass that finds no complete command in the buffer sends
    nothing: it only runs the scheduler and the read loop and returns with
    the bytes buffered so far, however long the rest of the command takes
    to arrive. *)
Theorem loop_incomplete_command (A0 : Z) (env : Env) (incoming : list Z)
    (st : Firmware) :
  let buffered := (drain incoming (updateSoftPWM (millisAtUpdate env) st)).1 in
  hasCompleteCommand buffered = false ->
  loop A0 env incoming st
  = (Returned buffered, (drain incoming (updateSoftPWM (millisAtUpdate env) st)).2) /\
  serialOut buffered = serialOut st /\
  softPWM buffered = softPWM (updateSoftPWM (millisAtUpdate env) st) /\
  pinLog buffered = pinLog (updateSoftPWM (millisAtUpdate env) st).
Proof.
  intros buffered Hpartial. subst buffered.
  pose proof (drain_shape incoming (updateSoftPWM (millisAtUpdate env) st)) as Hshape.
  unfold loop.
  destruct (drain incoming (updateSoftPWM (millisAtUpdate env) st)) as [st2 port].
  simpl in Hpartial, Hshape |- *. rewrite Hpartial.
  split; [reflexivity |]. rewrite Hshape. simpl.
  split; [| split; reflexivity].
  unfold updateSoftPWM.
  destruct (updateLoop_frame (millisAtUpdate env) (softPWMCount st) 0 st)
    as (_ & _ & Hs & _). exact Hs.
Qed.

Lemma loop_incomplete_command_witness :
  (loop 14 (quietEnv 0) [3; 4]%Z initFirmware).2 = [] /\
  serialOut (drain [3; 4]%Z (updateSoftPWM 0 initFirmware)).1 = [].
Proof.
  destruct (loop_incomplete_command 14 (quietEnv 0) [3; 4]%Z initFirmware)
    as (Hloop & Hout & _); [reflexivity |].
  split; [rewrite Hloop; reflexivity | exact Hout].
Defined.

(** ** The buffer cannot fill up with a partial command *)

(** X19: three buffered bytes always make a complete command, since no
    opcode takes more than two operands; in particular a full buffer holds
    a complete command, so a pass always makes room in it (or restarts)
    and the read loop is never shut out for good. *)
Theorem three_bytes_complete (st : Firmware) :
  (3 <= bufferIndex st)%Z ->
  hasCompleteCommand st = true /\
  (1 <= 1 + getRequiredArgs (byteAt 0 st) <= 3)%Z /\
  (3 <= BUFFER_SIZE)%Z.
Proof.
  intros Hthree. unfold hasCompleteCommand.
  pose proof (getRequiredArgs_nonneg (byteAt 0 st)) as Hge.
  pose proof (getRequiredArgs_le_2 (byteAt 0 st)) as Hle.
  split; [| split; [lia | unfold BUFFER_SIZE; lia]].
  apply andb_true_iff. split; apply Z.ltb_lt; lia.
Qed.

Lemma three_bytes_complete_witness :
  hasCompleteCommand
    (set_bufferIndex 10 (set_commandBuffer [6; 1; 0; 9; 9; 9; 9; 9; 1; 2]%Z initFirmware))
  = true.
Proof.
  apply (three_bytes_complete
           (set_bufferIndex 10
              (set_commandBuffer [6; 1; 0; 9; 9; 9; 9; 9; 1; 2]%Z initFirmware))).
  simpl. lia.
Defined.
